(** * MinedMap: the PNG tile codec boundary, the quadrant downsampler and the
      pyramid composer ([src/PNG.cpp]), and the NBT double tag
      ([src/NBT/DoubleTag.hpp]).

    The C++ code is embedded shallowly.  Machine integers are [Z] with their
    wrap-around written out (LP64: [size_t] has 64 bits, [int] has 32 bits,
    [png_uint_32] has 32 bits, [uint8_t] has 8 bits).  A byte buffer
    ([uint8_t *] with its allocation) is a [list Z]; an access outside the
    allocation is undefined behaviour and is reported as such, never
    performed.  The file system, the open [FILE] handles and the outcomes of
    the allocations ([new] and libpng's own) are an explicit [world] threaded
    through a small state-and-exception monad. *)

From stdpp Require Import base numbers list strings gmap.
From Stdlib Require Import ZArith Lia.

Local Open Scope Z_scope.

(** ** Machine integers *)

Module SizeT.
  (** [size_t]: unsigned, 64 bits; arithmetic wraps. *)
Definition modulus : Z := 2 ^ 64.
Definition wrap (x : Z) : Z := x mod modulus.
Definition add (x y : Z) : Z := wrap (x + y).
Definition mul (x y : Z) : Z := wrap (x * y).
  (** Unsigned division; the divisor is never zero in this code. *)
Definition div (x y : Z) : Z := x / y.
End SizeT.

Module Int.
  (** [int]: signed, 32 bits, two's complement. *)
Definition wrap (x : Z) : Z := (x + 2 ^ 31) mod 2 ^ 32 - 2 ^ 31.
Definition add (x y : Z) : Z := wrap (x + y).
  (** C++ integer division truncates towards zero. *)
Definition div (x y : Z) : Z := wrap (Z.quot x y).
End Int.

Module UInt8.
  (** [uint8_t]: conversion from [int] keeps the low 8 bits. *)
Definition of_int (x : Z) : Z := x mod 2 ^ 8.
Definition valid (x : Z) : Prop := 0 <= x < 2 ^ 8.
End UInt8.

Module PngUInt32.
  (** [png_uint_32]: the type of libpng's width and height parameters; a
      [size_t] argument is converted implicitly. *)
Definition of_size_t (x : Z) : Z := x mod 2 ^ 32.
End PngUInt32.

Declare Scope size_t_scope.
Delimit Scope size_t_scope with sz.
Arguments SizeT.add (x y)%_size_t_scope.
Arguments SizeT.mul (x y)%_size_t_scope.
Arguments SizeT.div (x y)%_size_t_scope.
Infix "+" := SizeT.add : size_t_scope.
Infix "*" := SizeT.mul : size_t_scope.
Infix "/" := SizeT.div : size_t_scope.

(** ** Byte buffers *)

(** [buf[i]] as an rvalue. [None]: [i] is outside the allocation. *)
Definition load (buf : list Z) (i : Z) : option Z :=
  if decide (0 <= i) then buf !! Z.to_nat i else None.

(** [buf[i] = v]. [None]: [i] is outside the allocation. *)
Definition store (buf : list Z) (i : Z) (v : Z) : option (list Z) :=
  if decide (0 <= i < Z.of_nat (length buf))
  then Some (<[Z.to_nat i := v]> buf)
  else None.

(** [std::memcpy(&dst[off], src, n)] where [src] points to an allocation
    holding the bytes [src]. *)
Definition memcpy (dst : list Z) (off : Z) (src : list Z) (n : Z) : option (list Z) :=
  if decide (0 <= off ∧ 0 <= n ∧ off + n <= Z.of_nat (length dst) ∧ n <= Z.of_nat (length src))
  then Some (take (Z.to_nat off) dst ++ take (Z.to_nat n) src ++ drop (Z.to_nat (off + n)) dst)
  else None.

(** An allocation of [n] bytes, every byte zero. *)
Definition zeroed (n : Z) : list Z := replicate (Z.to_nat n) 0.

(** [std::memset(dst, v, n)], [v] an [unsigned char] already. *)
Definition memset (dst : list Z) (v : Z) (n : Z) : option (list Z) :=
  if decide (0 <= n <= Z.of_nat (length dst))
  then Some (replicate (Z.to_nat n) v ++ drop (Z.to_nat n) dst)
  else None.

(** ** Counting loops *)

(** [for (size_t i = i0; i < i0 + n; i++) body], the state threaded through;
    the loop stops at the first undefined access. *)
Fixpoint for_loop {S : Type} (n : nat) (i : Z) (body : Z → S → option S) (s : S) : option S :=
  match n with
  | O => Some s
  | Datatypes.S n' =>
      match body i s with
      | Some s' => for_loop n' (i + 1) body s'
      | None => None
      end
  end.

(** [for (size_t i = 0; i < bound; i++) body]. *)
Definition for_upto {S : Type} (bound : Z) (body : Z → S → option S) (s : S) : option S :=
  for_loop (Z.to_nat bound) 0 body s.

(** ** The downsampling loop of [readScaled] (PNG.cpp, lines 127-139) *)

(** [(colored ? 4 : 2)] *)
Definition bytes_per_pixel (colored : bool) : Z := if colored then 4 else 2.

(** [(input[i] + input[i+b] + input[i+b*width] + input[i+b*width+b])/4],
    evaluated in [int] after integer promotion. *)
Definition average4 (x0 x1 x2 x3 : Z) : Z :=
  Int.div (Int.add (Int.add (Int.add x0 x1) x2) x3) 4.

(** [size_t i = 2*b*(width*h + w) + c;] *)
Definition input_index (b width h w c : Z) : Z :=
  (2 * b * (width * h + w) + c)%sz.

(** [b*(width*(offset_h+h) + offset_w+w) + c] *)
Definition output_index (b width offset_w offset_h h w c : Z) : Z :=
  (b * (width * (offset_h + h) + offset_w + w) + c)%sz.

(** The body of the innermost loop (line 135-136). *)
Definition readScaled_body (input : list Z) (b width offset_w offset_h h w c : Z)
    (data : list Z) : option (list Z) :=
  let i := input_index b width h w c in
  x0 ← load input i;
  x1 ← load input (i + b)%sz;
  x2 ← load input (i + b * width)%sz;
  x3 ← load input (i + b * width + b)%sz;
  store data (output_index b width offset_w offset_h h w c)
        (UInt8.of_int (average4 x0 x1 x2 x3)).

(** The three nested loops (lines 132-139).  Both outer loops are bounded
    by [width/2], as in the source. *)
Definition readScaled_loop (input : list Z) (b width offset_w offset_h : Z)
    (data : list Z) : option (list Z) :=
  for_upto (width / 2)%sz (λ h data,
    for_upto (width / 2)%sz (λ w data,
      for_upto b (λ c data,
        readScaled_body input b width offset_w offset_h h w c data) data) data) data.

(** ** libpng, as this code sees it *)

(** What libpng holds for an image after [png_set_IHDR] and [png_set_rows]
    (writing) or after [png_read_png] (reading): the header fields the code
    looks at, and the rows behind [row_pointers]. *)
Record png_image := PngImage {
  image_width : Z;
  image_height : Z;
  image_bit_depth : Z;
  image_color_type : Z;
  image_rows : list (list Z);
}.

Definition PNG_COLOR_TYPE_GRAY_ALPHA : Z := 4.
Definition PNG_COLOR_TYPE_RGB_ALPHA : Z := 6.

(** [colored ? PNG_COLOR_TYPE_RGB_ALPHA : PNG_COLOR_TYPE_GRAY_ALPHA] *)
Definition color_type_of (colored : bool) : Z :=
  if colored then PNG_COLOR_TYPE_RGB_ALPHA else PNG_COLOR_TYPE_GRAY_ALPHA.

(** The library itself is not part of the repository: it is an interface.
    [png_set_IHDR] tells whether the header is accepted ([false]:
    [png_error], a [longjmp]); [png_write_png] gives the bytes put into the
    file and whether it ran to its end; [png_read_png] gives the decoded
    image, [None] when it ends in [png_error]. *)
Class LibPNG := {
  stream : Type;
  stream_empty : stream;
  png_set_IHDR : Z → Z → Z → Z → bool;
  png_write_png : png_image → stream * bool;
  png_read_png : stream → option png_image;
}.

(** The one property of libpng a round trip rests on: what it wrote in
    full, it reads back unchanged. *)
Definition png_lossless (L : LibPNG) : Prop :=
  ∀ img s, png_write_png img = (s, true) → png_read_png s = Some img.

(** ** Exceptions and the world *)

Inductive exception :=
| system_error (code : Z) (what : string)
| runtime_error (what : string)
| bad_alloc.

Inductive result (A : Type) :=
| Return (a : A)
| Throw (e : exception)
| Undefined.
Arguments Return {A} a.
Arguments Throw {A} e.
Arguments Undefined {A}.

Definition ENOENT : Z := 2.
Definition EACCES : Z := 13.

Section World.
Context {L : LibPNG}.

Record world := World {
  (** the files that exist, by path *)
  files : gmap string stream;
  (** paths that cannot be opened for writing *)
  write_protected : gset string;
  (** [FILE] handles opened and not yet closed, each named by its path *)
  open_files : list string;
  (** whether each of the coming allocations succeeds, in the order the
      program asks for them: the arrays of [new] and the structs of libpng;
      past the end of the list they all do *)
  allocations : list bool;
  errno : Z;
}.

Definition M (A : Type) : Type := world → result A * world.

Definition ret {A} (a : A) : M A := λ σ, (Return a, σ).
Definition throw {A} (e : exception) : M A := λ σ, (Throw e, σ).
Definition undefined {A} : M A := λ σ, (Undefined, σ).
Definition bind {A B} (m : M A) (k : A → M B) : M B := λ σ,
  match m σ with
  | (Return a, σ') => k a σ'
  | (Throw e, σ') => (Throw e, σ')
  | (Undefined, σ') => (Undefined, σ')
  end.

(** An access that is checked: undefined behaviour when out of bounds. *)
Definition defined {A} (o : option A) : M A :=
  match o with Some a => ret a | None => undefined end.

Definition set_files (f : gmap string stream → gmap string stream) (σ : world) : world :=
  World (f (files σ)) (write_protected σ) (open_files σ) (allocations σ) (errno σ).
Definition set_open_files (f : list string → list string) (σ : world) : world :=
  World (files σ) (write_protected σ) (f (open_files σ)) (allocations σ) (errno σ).
Definition set_allocations (f : list bool → list bool) (σ : world) : world :=
  World (files σ) (write_protected σ) (open_files σ) (f (allocations σ)) (errno σ).
Definition set_errno (e : Z) (σ : world) : world :=
  World (files σ) (write_protected σ) (open_files σ) (allocations σ) e.

(** [std::fopen(filename, "rb")]: the handle, or a null pointer. *)
Definition fopen_rb (filename : string) : M (option string) := λ σ,
  match files σ !! filename with
  | Some _ => (Return (Some filename), set_open_files (cons filename) σ)
  | None => (Return None, set_errno ENOENT σ)
  end.

(** [std::fopen(filename, "wb")]: creates or truncates the file. *)
Definition fopen_wb (filename : string) : M (option string) := λ σ,
  if decide (filename ∈ write_protected σ)
  then (Return None, set_errno EACCES σ)
  else (Return (Some filename),
        set_open_files (cons filename) (set_files <[filename := stream_empty]> σ)).

(** [std::fclose(f)] *)
Fixpoint remove_first (f : string) (l : list string) : list string :=
  match l with
  | [] => []
  | x :: l' => if decide (x = f) then l' else x :: remove_first f l'
  end.
Definition fclose (f : string) : M unit := λ σ,
  (Return tt, set_open_files (remove_first f) σ).

Definition get_errno : M Z := λ σ, (Return (errno σ), σ).

(** [png_create_write_struct], [png_create_read_struct],
    [png_create_info_struct]: [false] stands for a null pointer. *)
Definition png_create_struct : M bool := λ σ,
  (Return (default true (head (allocations σ))), set_allocations (drop 1) σ).

(** [new uint8_t[n]]: the array, or [std::bad_alloc].  The bytes of a new
    array are indeterminate; they are zero here, and the code writes every
    byte before it reads it ([std::memset] in [mipmap], [read] in
    [readScaled]).  [std::unique_ptr] gives the array back on every way out
    of its scope, which the world does not record. *)
Definition new_uint8_array (n : Z) : M (list Z) := λ σ,
  if default true (head (allocations σ))
  then (Return (zeroed n), set_allocations (drop 1) σ)
  else (Throw bad_alloc, set_allocations (drop 1) σ).

(** [png_destroy_write_struct], [png_destroy_read_struct]: they release
    libpng's own memory and touch nothing the world records. *)
Definition png_destroy_struct : M unit := ret tt.

(** The bytes behind the handle [f] ([png_init_io] then libpng's reads). *)
Definition file_contents (f : string) : M (option stream) := λ σ,
  (Return (files σ !! f), σ).

(** libpng's output through the handle [f]. *)
Definition file_put (f : string) (s : stream) : M unit := λ σ,
  (Return tt, set_files <[f := s]> σ).
End World.

Declare Scope M_scope.
Delimit Scope M_scope with M.
Notation "x <- m ;; k" := (bind m (λ x, k))
  (at level 100, m at next level, right associativity) : M_scope.
Notation "m ;; k" := (bind m (λ _, k))
  (at level 100, right associativity) : M_scope.

(** ** [PNG::write] and [PNG::read] (PNG.cpp, lines 41-121) *)

(** [&data[(colored ? 4 : 2)*i*width]] *)
Definition row_offset (b width i : Z) : Z := (b * i * width)%sz.

(** The [n] bytes libpng reads through a row pointer at [off]. *)
Definition read_row (data : list Z) (off n : Z) : option (list Z) :=
  if decide (0 <= off ∧ 0 <= n ∧ off + n <= Z.of_nat (length data))
  then Some (take (Z.to_nat n) (drop (Z.to_nat off) data))
  else None.

(** [png_set_rows] then what [png_write_png] reads: the header gives
    [png_h] rows of [rowbytes = b * png_w] bytes each (8 bits per channel). *)
Definition rows_of (data : list Z) (b width : Z) (png_w png_h : Z) : option (list (list Z)) :=
  mapM (λ i, read_row data (row_offset b width i) (b * png_w)) (seqZ 0 png_h).

(** The copy loop of [read] (lines 116-117). *)
Definition copy_rows (rows : list (list Z)) (b width height : Z) (data : list Z) : option (list Z) :=
  for_upto height (λ i data,
    row ← rows !! Z.to_nat i;
    memcpy data (row_offset b width i) row (b * width)%sz) data.

Section Codec.
Context {L : LibPNG}.
Local Open Scope M_scope.

Definition write (filename : string) (data : list Z) (width height : Z) (colored : bool)
    : M unit :=
  f <- fopen_wb filename ;;
  match f with
  | None =>
      e <- get_errno ;;
      throw (system_error e "unable to open PNG file")
  | Some f =>
      png_ptr <- png_create_struct ;;
      if negb png_ptr then throw (runtime_error "unable to create PNG write struct") else
      info_ptr <- png_create_struct ;;
      if negb info_ptr then
        (png_destroy_struct ;;
         throw (runtime_error "unable to create PNG info struct"))
      else
      (* the branch taken when [setjmp] returns a second time *)
      let on_png_error : M unit :=
        (png_destroy_struct ;;
         fclose f ;;
         throw (runtime_error "unable to write PNG file")) in
      let b := bytes_per_pixel colored in
      let png_w := PngUInt32.of_size_t width in
      let png_h := PngUInt32.of_size_t height in
      if negb (png_set_IHDR png_w png_h 8 (color_type_of colored)) then on_png_error else
      rows <- defined (rows_of data b width png_w png_h) ;;
      let '(out, ok) :=
        png_write_png (PngImage png_w png_h 8 (color_type_of colored) rows) in
      file_put f out ;;
      if negb ok then on_png_error else
      png_destroy_struct ;;
      fclose f
  end.

Definition read (filename : string) (data : list Z) (width height : Z) (colored : bool)
    : M (list Z) :=
  f <- fopen_rb filename ;;
  match f with
  | None =>
      e <- get_errno ;;
      throw (system_error e "unable to open PNG file")
  | Some f =>
      png_ptr <- png_create_struct ;;
      if negb png_ptr then throw (runtime_error "unable to create PNG read struct") else
      info_ptr <- png_create_struct ;;
      if negb info_ptr then
        (png_destroy_struct ;;
         throw (runtime_error "unable to create PNG info struct"))
      else
      end_info <- png_create_struct ;;
      if negb end_info then
        (png_destroy_struct ;;
         throw (runtime_error "unable to create PNG info struct"))
      else
      let on_png_error : M (list Z) :=
        (png_destroy_struct ;;
         fclose f ;;
         throw (runtime_error "unable to read PNG file")) in
      contents <- file_contents f ;;
      match contents ≫= png_read_png with
      | None => on_png_error
      | Some img =>
          if decide (image_width img ≠ width
                     ∨ image_height img ≠ height
                     ∨ image_bit_depth img ≠ 8
                     ∨ image_color_type img ≠ color_type_of colored)
          then on_png_error (* [longjmp(png_jmpbuf(png_ptr), 1)] *)
          else
            let b := bytes_per_pixel colored in
            data' <- defined (copy_rows (image_rows img) b width height data) ;;
            png_destroy_struct ;;
            fclose f ;;
            ret data'
      end
  end.

(** ** [readScaled] and [PNG::mipmap] (PNG.cpp, lines 123-153) *)

(** [file] is [None] for a null pointer. *)
Definition readScaled (data : list Z) (offset_w offset_h : Z) (file : option string)
    (width height : Z) (colored : bool) : M (list Z) :=
  match file with
  | None => ret data
  | Some file =>
      let b := bytes_per_pixel colored in
      input <- new_uint8_array (b * width * height)%sz ;;
      input <- read file input width height colored ;;
      defined (readScaled_loop input b width offset_w offset_h data)
  end.

Definition mipmap (output : string) (width height : Z) (colored : bool)
    (nw ne sw se : option string) : M unit :=
  let size := (bytes_per_pixel colored * width * height)%sz in
  data <- new_uint8_array size ;;
  data <- defined (memset data 0 size) ;;
  data <- readScaled data 0 0 nw width height colored ;;
  data <- readScaled data (width / 2)%sz 0 ne width height colored ;;
  data <- readScaled data 0 (height / 2)%sz sw width height colored ;;
  data <- readScaled data (width / 2)%sz (height / 2)%sz se width height colored ;;
  write output data width height colored.
End Codec.

(** ** Pixels, as the specification addresses them *)

(** Channel [c] of the pixel in row [r] and column [col] of a row-major
    buffer of [width] pixels per row and [b] bytes per pixel. *)
Definition pixel_index (b width r col c : Z) : Z := b * (width * r + col) + c.

Definition pixel (buf : list Z) (b width r col c : Z) : option Z :=
  load buf (pixel_index b width r col c).

(** The 2x2 box filter in the specification's words:
    [(src[2h,2w,c] + src[2h,2w+1,c] + src[2h+1,2w,c] + src[2h+1,2w+1,c]) / 4],
    rounded down. *)
Definition box_average (src : list Z) (b width h w c : Z) : option Z :=
  x0 ← pixel src b width (2 * h) (2 * w) c;
  x1 ← pixel src b width (2 * h) (2 * w + 1) c;
  x2 ← pixel src b width (2 * h + 1) (2 * w) c;
  x3 ← pixel src b width (2 * h + 1) (2 * w + 1) c;
  Some ((x0 + x1 + x2 + x3) / 4).

(** ** [NBT::DoubleTag] (NBT/DoubleTag.hpp) *)

Module NBT.
(** Modelled from the spec: [Buffer] and [Buffer::get], declared in a header
    that is not among the sources.  The specification gives the byte cursor
    one primitive: a fixed-size read of [n] bytes either succeeds and
    advances the cursor by [n], or fails on underrun.  A successful read
    hands out the position of the bytes read. *)
Record Buffer := MkBuffer {
  buffer_bytes : list Z;
  buffer_pos : nat;
}.

(** Modelled from the spec: the bytes left from the cursor on. *)
Definition remaining (buffer : Buffer) : nat :=
  length (buffer_bytes buffer) - buffer_pos buffer.

(** Modelled from the spec: [Buffer::get(n)], see [Buffer]. *)
Definition Buffer_get (n : nat) (buffer : Buffer) : option (nat * Buffer) :=
  if decide (n ≤ remaining buffer)%nat
  then Some (buffer_pos buffer,
             MkBuffer (buffer_bytes buffer) (buffer_pos buffer + n))
  else None.

(** The tag keeps the pointer it was given. *)
Record DoubleTag := MkDoubleTag { ptr : nat }.

(** [DoubleTag(Buffer *buffer) { ptr = buffer->get(8); }]: the new tag and
    the buffer after the call; [None] when [get] fails. *)
Definition DoubleTag_new (buffer : Buffer) : option (DoubleTag * Buffer) :=
  '(p, buffer') ← Buffer_get 8 buffer;
  Some (MkDoubleTag p, buffer').
End NBT.

(** ** A stand-in for libpng, to run the code on examples *)

(** An implementation of the interface that keeps the image itself in the
    file.  Like libpng, it refuses a header with a zero dimension or one
    above 2^31 - 1. *)
Definition plain_png : LibPNG := {|
  stream := option png_image;
  stream_empty := None;
  png_set_IHDR w h depth color :=
    bool_decide (0 < w <= 2 ^ 31 - 1 ∧ 0 < h <= 2 ^ 31 - 1);
  png_write_png img := (Some img, true);
  png_read_png s := s;
|}.

(** A world with the given files, nothing open, nothing protected, and the
    given outcomes of the coming allocations. *)
Definition world_with (fs : list (string * png_image)) (alloc : list bool)
    : @world plain_png :=
  World (L := plain_png) (list_to_map (prod_map id Some <$> fs)) ∅ [] alloc 0.

(** The same with no allocation failure ahead. *)
Definition world_of (fs : list (string * png_image)) : @world plain_png :=
  world_with fs [].

(** What a call leaves behind for its caller: how it ended, and the
    handles still open. *)
Definition outcome_and_handles {A} (r : result A * @world plain_png)
    : result A * list string :=
  (fst r, open_files (snd r)).

(** A 2x4 luminance+alpha tile: taller than wide. *)
Definition tall_tile : png_image :=
  PngImage 2 4 8 PNG_COLOR_TYPE_GRAY_ALPHA
    [ [10; 20; 30; 40];
      [50; 60; 70; 80];
      [100; 110; 120; 130];
      [140; 150; 160; 170] ].

(** A 4x2 luminance+alpha tile: wider than tall. *)
Definition wide_tile : png_image :=
  PngImage 4 2 8 PNG_COLOR_TYPE_GRAY_ALPHA
    [ [1; 2; 3; 4; 5; 6; 7; 8];
      [9; 10; 11; 12; 13; 14; 15; 16] ].

(** A 2x4 luminance+alpha tile whose bytes are all 9: every 2x2 block of
    it is uniform. *)
Definition uniform_tile : png_image :=
  PngImage 2 4 8 PNG_COLOR_TYPE_GRAY_ALPHA
    [ [9; 9; 9; 9];
      [9; 9; 9; 9];
      [9; 9; 9; 9];
      [9; 9; 9; 9] ].

(** The 16 bytes of [tall_tile], row after row. *)
Definition tall_tile_bytes : list Z := concat (image_rows tall_tile).

(** ** Predicates of the proofs *)

(** The triples [(h', w', c')] the loops have gone through when they stand
    at [(h, w, c)]: [n] bounds the column loop, [b] the channel loop. *)
Definition before (n b h w c : Z) (h' w' c' : Z) : Prop :=
  0 <= h' ∧ 0 <= w' < n ∧ 0 <= c' < b ∧
  (h' < h ∨ (h' = h ∧ (w' < w ∨ (w' = w ∧ c' < c)))).

(** [d] is [d0] with the box average of [input] painted at every output
    pixel of [done], and nothing else changed. *)
Definition painted (input : list Z) (b width offset_w offset_h : Z)
    (done : Z → Z → Z → Prop) (d0 d : list Z) : Prop :=
  length d = length d0 ∧
  (∀ h w c, done h w c →
     is_Some (box_average input b width h w c) ∧
     pixel d b width (offset_h + h) (offset_w + w) c = box_average input b width h w c) ∧
  (∀ j, (∀ h w c, done h w c → j ≠ pixel_index b width (offset_h + h) (offset_w + w) c) →
     load d j = load d0 j).

(** The first [n] of the coming allocations succeed. *)
Definition alloc_ok {L : LibPNG} (n : nat) (σ : world) : Prop :=
  Forall (λ ok, ok = true) (take n (allocations σ)).

(** The output pixels the loops of [readScaled] go through. *)
Definition visited (b width : Z) (h w c : Z) : Prop :=
  0 <= h < width / 2 ∧ 0 <= w < width / 2 ∧ 0 <= c < b.

(** The world once [n] more allocations have been served. *)
Definition after_allocations {L : LibPNG} (n : nat) (σ : world) : world :=
  World (files σ) (write_protected σ) (open_files σ) (drop n (allocations σ)) (errno σ).

(** [file] exists and libpng decodes it to an 8-bit image of the given
    width, height and format; its [height] rows of [b * width] bytes, one
    after the other, are [input]. *)
Definition tile_file {L : LibPNG} (σ : world) (file : string)
    (width height : Z) (colored : bool) (input : list Z) : Prop :=
  ∃ s img,
    files σ !! file = Some s ∧
    png_read_png s = Some img ∧
    image_width img = width ∧ image_height img = height ∧
    image_bit_depth img = 8 ∧ image_color_type img = color_type_of colored ∧
    length (image_rows img) = Z.to_nat height ∧
    Forall (λ row, Z.of_nat (length row) = bytes_per_pixel colored * width)
      (image_rows img) ∧
    concat (image_rows img) = input ∧
    Forall UInt8.valid input.

(** [file] cannot be read as a tile of the given width, height and format:
    it does not exist, libpng fails on it, or its header differs. *)
Definition bad_tile_file {L : LibPNG} (σ : world) (file : string)
    (width height : Z) (colored : bool) : Prop :=
  match files σ !! file with
  | None => True
  | Some s =>
      match png_read_png s with
      | None => True
      | Some img =>
          image_width img ≠ width ∨ image_height img ≠ height ∨
          image_bit_depth img ≠ 8 ∨ image_color_type img ≠ color_type_of colored
      end
  end.






(** A call that has not returned, and has left the files of [σ0] alone. *)
Definition stopped {L : LibPNG} {A} (σ0 : world) (r : result A * world) : Prop :=
  (∀ a, fst r ≠ Return a) ∧ files (snd r) = files σ0.

(** * Properties *)

(** ** Machine arithmetic *)

Lemma SizeT_wrap_small x : 0 <= x < 2 ^ 64 → SizeT.wrap x = x.
Proof. intros. unfold SizeT.wrap, SizeT.modulus. by apply Z.mod_small. Qed.

Lemma SizeT_add_small x y : 0 <= x + y < 2 ^ 64 → (x + y)%sz = x + y.
Proof. apply SizeT_wrap_small. Qed.

Lemma SizeT_mul_small x y : 0 <= x * y < 2 ^ 64 → (x * y)%sz = x * y.
Proof. apply SizeT_wrap_small. Qed.

Lemma Int_wrap_small x : - 2 ^ 31 <= x < 2 ^ 31 → Int.wrap x = x.
Proof. intros. unfold Int.wrap. rewrite Z.mod_small; lia. Qed.

Lemma average4_floor x0 x1 x2 x3 :
  UInt8.valid x0 → UInt8.valid x1 → UInt8.valid x2 → UInt8.valid x3 →
  UInt8.of_int (average4 x0 x1 x2 x3) = (x0 + x1 + x2 + x3) / 4.
Proof.
  unfold UInt8.valid, average4, Int.add, Int.div, UInt8.of_int. intros.
  rewrite (Int_wrap_small (x0 + x1)) by lia.
  rewrite (Int_wrap_small (x0 + x1 + x2)) by lia.
  rewrite (Int_wrap_small (x0 + x1 + x2 + x3)) by lia.
  rewrite Z.quot_div_nonneg by lia.
  assert (0 <= (x0 + x1 + x2 + x3) / 4 < 256)
    by (split; [apply Z.div_pos | apply Z.div_lt_upper_bound]; lia).
  rewrite Int_wrap_small by lia. apply Z.mod_small. lia.
Qed.

(** C10: the channel sum is exact.  For four 8-bit values none of the three
    [int] additions wraps, the sum is at most 1020, the [int] quotient is
    the floor of the sum by 4 and at most 255, and its conversion to
    [uint8_t] changes nothing. *)
Theorem average4_exact x0 x1 x2 x3 :
  UInt8.valid x0 → UInt8.valid x1 → UInt8.valid x2 → UInt8.valid x3 →
  Int.add x0 x1 = x0 + x1 ∧
  Int.add (Int.add x0 x1) x2 = x0 + x1 + x2 ∧
  Int.add (Int.add (Int.add x0 x1) x2) x3 = x0 + x1 + x2 + x3 ∧
  0 <= x0 + x1 + x2 + x3 <= 1020 ∧
  average4 x0 x1 x2 x3 = (x0 + x1 + x2 + x3) / 4 ∧
  0 <= average4 x0 x1 x2 x3 <= 255 ∧
  UInt8.of_int (average4 x0 x1 x2 x3) = average4 x0 x1 x2 x3.
Proof.
  unfold UInt8.valid. intros H0 H1 H2 H3.
  assert (Hq : 0 <= (x0 + x1 + x2 + x3) / 4 < 256)
    by (split; [apply Z.div_pos | apply Z.div_lt_upper_bound]; lia).
  assert (Ha : average4 x0 x1 x2 x3 = (x0 + x1 + x2 + x3) / 4).
  { unfold average4, Int.add, Int.div.
    rewrite (Int_wrap_small (x0 + x1)) by lia.
    rewrite (Int_wrap_small (x0 + x1 + x2)) by lia.
    rewrite (Int_wrap_small (x0 + x1 + x2 + x3)) by lia.
    rewrite Z.quot_div_nonneg by lia. apply Int_wrap_small. lia. }
  unfold Int.add.
  rewrite (Int_wrap_small (x0 + x1)) by lia.
  rewrite (Int_wrap_small (x0 + x1 + x2)) by lia.
  rewrite (Int_wrap_small (x0 + x1 + x2 + x3)) by lia.
  rewrite Ha.
  repeat split; try lia.
  unfold UInt8.of_int. apply Z.mod_small. lia.
Qed.

Lemma average4_exact_witness :
  Int.add (Int.add (Int.add 255 255) 255) 255 = 1020 ∧
  average4 255 255 255 255 = 255 ∧
  UInt8.of_int (average4 255 255 255 255) = average4 255 255 255 255.
Proof.
  destruct (average4_exact 255 255 255 255) as (_ & _ & H3 & _ & H5 & _ & H7);
    try (unfold UInt8.valid; lia).
  split; [exact H3 | split; [exact H5 | exact H7]].
Defined.

(** ** Pixel indices *)

Lemma pixel_index_bound b width height r col c :
  0 <= r < height → 0 <= col < width → 0 <= c < b →
  0 <= pixel_index b width r col c < b * width * height.
Proof.
  unfold pixel_index. intros Hr Hc Hb.
  assert (0 <= width * r) by (apply Z.mul_nonneg_nonneg; lia).
  assert (width * (r + 1) <= width * height) by (apply Z.mul_le_mono_nonneg_l; lia).
  assert (0 <= b * (width * r + col)) by (apply Z.mul_nonneg_nonneg; lia).
  assert (b * (width * r + col + 1) <= b * (width * height))
    by (apply Z.mul_le_mono_nonneg_l; lia).
  lia.
Qed.

Lemma pixel_index_inj b width r col c r' col' c' :
  0 <= col < width → 0 <= c < b → 0 <= col' < width → 0 <= c' < b →
  pixel_index b width r col c = pixel_index b width r' col' c' →
  r = r' ∧ col = col' ∧ c = c'.
Proof.
  unfold pixel_index. intros Hcol Hc Hcol' Hc' E.
  assert (width * r + col = width * r' + col') by nia.
  assert (r = r') by nia.
  subst. lia.
Qed.

Section Indices.
Variables b width height : Z.
Hypothesis Hb : 0 < b.
Hypothesis Hsize : b * width * height < 2 ^ 64.

Lemma input_index_pixel h w c :
  0 <= h → 2 * h + 1 < height → 0 <= w → 2 * w + 1 < width → 0 <= c < b →
  input_index b width h w c = pixel_index b width (2 * h) (2 * w) c ∧
  (input_index b width h w c + b)%sz = pixel_index b width (2 * h) (2 * w + 1) c ∧
  (input_index b width h w c + b * width)%sz = pixel_index b width (2 * h + 1) (2 * w) c ∧
  (input_index b width h w c + b * width + b)%sz = pixel_index b width (2 * h + 1) (2 * w + 1) c.
Proof.
  intros Hh Hh' Hw Hw' Hc.
  pose proof (pixel_index_bound b width height (2 * h + 1) (2 * w + 1) c
                ltac:(lia) ltac:(lia) ltac:(lia)) as Hmax.
  unfold pixel_index in *.
  assert (HP : 0 <= width * h) by (apply Z.mul_nonneg_nonneg; lia).
  set (P := width * h) in *.
  replace (width * (2 * h + 1)) with (2 * P + width) in * by (unfold P; lia).
  replace (width * (2 * h)) with (2 * P) in * by (unfold P; lia).
  set (K := 2 * P + width + (2 * w + 1)) in *.
  assert (Hbk : ∀ y, 0 <= y <= K → 0 <= b * y <= b * K).
  { intros; split; [apply Z.mul_nonneg_nonneg | apply Z.mul_le_mono_nonneg_l]; lia. }
  assert (HK : K <= b * K) by (pose proof (Hbk K); nia).
  assert (E : input_index b width h w c = b * (2 * P + 2 * w) + c).
  { unfold input_index.
    rewrite (SizeT_mul_small 2 b) by (pose proof (Hbk 2); lia).
    rewrite (SizeT_mul_small width h) by (fold P; lia). fold P.
    rewrite (SizeT_add_small P w) by lia.
    assert (E1 : 2 * b * (P + w) = b * (2 * P + 2 * w)) by lia.
    pose proof (Hbk (2 * P + 2 * w)).
    rewrite (SizeT_mul_small (2 * b) (P + w)) by (rewrite E1; lia).
    rewrite SizeT_add_small by (rewrite E1; lia).
    lia. }
  rewrite E. rewrite (SizeT_mul_small b width) by (pose proof (Hbk width); lia).
  pose proof (Hbk (2 * P + 2 * w)). pose proof (Hbk (2 * P + 2 * w + 1)).
  pose proof (Hbk (2 * P + width + 2 * w)). pose proof (Hbk width).
  rewrite (SizeT_add_small _ b) by lia.
  rewrite (SizeT_add_small _ (b * width)) by lia.
  rewrite (SizeT_add_small _ b) by lia.
  repeat split; lia.
Qed.

Lemma output_index_pixel offset_w offset_h h w c :
  0 <= offset_h → 0 <= h → offset_h + h < height →
  0 <= offset_w → 0 <= w → offset_w + w < width → 0 <= c < b →
  output_index b width offset_w offset_h h w c
  = pixel_index b width (offset_h + h) (offset_w + w) c.
Proof.
  intros Hoh Hh Hh' How Hw Hw' Hc.
  pose proof (pixel_index_bound b width height (offset_h + h) (offset_w + w) c
                ltac:(lia) ltac:(lia) ltac:(lia)) as Hmax.
  unfold pixel_index in *. unfold output_index.
  assert (HP : 0 <= width * (offset_h + h)) by (apply Z.mul_nonneg_nonneg; lia).
  set (K := width * (offset_h + h) + (offset_w + w)) in *.
  assert (HK : 0 <= b * K ∧ K <= b * K) by (subst K; nia).
  assert (Hbw : 1 <= b * width) by nia.
  assert (Hh64 : 1 * height <= b * width * height)
    by (apply Z.mul_le_mono_nonneg_r; lia).
  rewrite (SizeT_add_small offset_h h) by lia.
  rewrite (SizeT_mul_small width _) by lia.
  rewrite (SizeT_add_small _ offset_w) by lia.
  rewrite (SizeT_add_small _ w) by lia.
  replace (width * (offset_h + h) + offset_w + w) with K by (subst K; lia).
  rewrite SizeT_mul_small by lia.
  rewrite SizeT_add_small by lia. done.
Qed.
End Indices.

Lemma load_is_Some buf i : 0 <= i < Z.of_nat (length buf) → is_Some (load buf i).
Proof.
  intros. unfold load. rewrite decide_True by lia. apply lookup_lt_is_Some. lia.
Qed.

Lemma load_valid buf i x : Forall UInt8.valid buf → load buf i = Some x → UInt8.valid x.
Proof.
  unfold load. case_decide; [|done]. intros Hall Hx.
  by eapply Forall_lookup_1.
Qed.

Lemma load_store_eq buf i v buf' : store buf i v = Some buf' → load buf' i = Some v.
Proof.
  unfold store, load. case_decide; [|done]. intros [= <-].
  rewrite decide_True by lia. apply list_lookup_insert_eq. lia.
Qed.

Lemma load_store_ne buf i j v buf' :
  store buf i v = Some buf' → i ≠ j → load buf' j = load buf j.
Proof.
  unfold store, load. case_decide; [|done]. intros [= <-] Hne.
  case_decide; [|done]. apply list_lookup_insert_ne. lia.
Qed.

Lemma length_store buf i v buf' : store buf i v = Some buf' → length buf' = length buf.
Proof.
  unfold store. case_decide; [|done]. intros [= <-]. apply length_insert.
Qed.

Lemma store_is_Some buf i v : 0 <= i < Z.of_nat (length buf) → is_Some (store buf i v).
Proof. intros. unfold store. rewrite decide_True by lia. eauto. Qed.

(** The loop body at a pixel of the child: what it loads, what it stores. *)
Lemma readScaled_body_eq input b width height offset_w offset_h h w c data :
  0 < b → Z.of_nat (length input) = b * width * height →
  Z.of_nat (length input) < 2 ^ 64 → Forall UInt8.valid input →
  0 <= h → 2 * h + 1 < height → 0 <= w → 2 * w + 1 < width → 0 <= c < b →
  ∃ v, box_average input b width h w c = Some v ∧
       UInt8.valid v ∧
       readScaled_body input b width offset_w offset_h h w c data
       = store data (output_index b width offset_w offset_h h w c) v.
Proof.
  intros Hb Hlen Hsz Hvalid Hh Hh' Hw Hw' Hc.
  destruct (input_index_pixel b width height Hb ltac:(lia) h w c)
    as (E0 & E1 & E2 & E3); try lia.
  unfold readScaled_body, box_average, pixel. cbv zeta.
  rewrite E3, E2, E1, E0.
  destruct (load_is_Some input (pixel_index b width (2 * h) (2 * w) c)) as [x0 H0].
  { rewrite Hlen. apply pixel_index_bound; lia. }
  destruct (load_is_Some input (pixel_index b width (2 * h) (2 * w + 1) c)) as [x1 H1].
  { rewrite Hlen. apply pixel_index_bound; lia. }
  destruct (load_is_Some input (pixel_index b width (2 * h + 1) (2 * w) c)) as [x2 H2].
  { rewrite Hlen. apply pixel_index_bound; lia. }
  destruct (load_is_Some input (pixel_index b width (2 * h + 1) (2 * w + 1) c)) as [x3 H3].
  { rewrite Hlen. apply pixel_index_bound; lia. }
  rewrite H0, H1, H2, H3. simpl.
  pose proof (load_valid _ _ _ Hvalid H0). pose proof (load_valid _ _ _ Hvalid H1).
  pose proof (load_valid _ _ _ Hvalid H2). pose proof (load_valid _ _ _ Hvalid H3).
  exists ((x0 + x1 + x2 + x3) / 4). split; [done|].
  rewrite average4_floor by done. split; [|done].
  unfold UInt8.valid in *.
  split; [apply Z.div_pos | apply Z.div_lt_upper_bound]; lia.
Qed.

(** An invariant carried through a counting loop whose body is defined at
    every step. *)
Lemma for_loop_inv {S : Type} (I : Z → S → Prop) (body : Z → S → option S) n i0 s :
  I i0 s →
  (∀ i s, i0 <= i < i0 + Z.of_nat n → I i s → ∃ s', body i s = Some s' ∧ I (i + 1) s') →
  ∃ s', for_loop n i0 body s = Some s' ∧ I (i0 + Z.of_nat n) s'.
Proof.
  revert i0 s. induction n as [|n IH]; intros i0 s H0 Hstep; simpl.
  - exists s. split; [done|]. by replace (i0 + Z.of_nat 0) with i0 by lia.
  - destruct (Hstep i0 s ltac:(lia) H0) as (s1 & -> & H1).
    destruct (IH (i0 + 1) s1 H1) as (s' & Hs' & HI).
    { intros i s2 Hi. apply Hstep. lia. }
    exists s'. split; [done|].
    by replace (i0 + Z.of_nat (Datatypes.S n)) with (i0 + 1 + Z.of_nat n) by lia.
Qed.

Lemma for_upto_inv {S : Type} (I : Z → S → Prop) (body : Z → S → option S) bound s :
  0 <= bound → I 0 s →
  (∀ i s, 0 <= i < bound → I i s → ∃ s', body i s = Some s' ∧ I (i + 1) s') →
  ∃ s', for_upto bound body s = Some s' ∧ I bound s'.
Proof.
  intros Hb H0 Hstep. unfold for_upto.
  destruct (for_loop_inv I body (Z.to_nat bound) 0 s H0) as (s' & Hs' & HI).
  { intros i s1 Hi. apply Hstep. lia. }
  exists s'. split; [done|]. by replace bound with (0 + Z.of_nat (Z.to_nat bound)) by lia.
Qed.

Lemma painted_ext input b width offset_w offset_h (D D' : Z → Z → Z → Prop) d0 d :
  (∀ h w c, D h w c ↔ D' h w c) →
  painted input b width offset_w offset_h D d0 d →
  painted input b width offset_w offset_h D' d0 d.
Proof.
  intros HD (Hlen & Hval & Hframe). split; [done|]. split.
  - intros h w c ?%HD. by apply Hval.
  - intros j Hj. apply Hframe. intros h w c ?%HD. by apply Hj.
Qed.

Lemma painted_start input b width offset_w offset_h n d0 :
  painted input b width offset_w offset_h (before n b 0 0 0) d0 d0.
Proof.
  split; [done|]. split; [|done].
  intros h w c (? & ? & ? & ?). lia.
Qed.

Section Loop.
Variables (input : list Z) (b width height offset_w offset_h : Z) (d0 : list Z).
Hypothesis Hb : 0 < b.
Hypothesis Hwidth0 : 0 <= width.
Hypothesis Hlen_input : Z.of_nat (length input) = b * width * height.
Hypothesis Hsize : Z.of_nat (length input) < 2 ^ 64.
Hypothesis Hvalid : Forall UInt8.valid input.
Hypothesis Hlen_data : Z.of_nat (length d0) = b * width * height.
Hypothesis Hrows : 2 * (width / 2) <= height.
Hypothesis How : 0 <= offset_w ∧ offset_w + width / 2 <= width.
Hypothesis Hoh : 0 <= offset_h ∧ offset_h + width / 2 <= height.

Lemma readScaled_body_painted h w c d :
  0 <= h < width / 2 → 0 <= w < width / 2 → 0 <= c < b →
  painted input b width offset_w offset_h (before (width / 2) b h w c) d0 d →
  ∃ d', readScaled_body input b width offset_w offset_h h w c d = Some d' ∧
        painted input b width offset_w offset_h (before (width / 2) b h w (c + 1)) d0 d'.
Proof.
  intros Hh Hw Hc (Hlen & Hval & Hframe).
  assert (Hwidth : 2 * (width / 2) <= width) by (apply Z.mul_div_le; lia).
  destruct (readScaled_body_eq input b width height offset_w offset_h h w c d)
    as (v & Hv & _ & ->); try done; try lia.
  rewrite (output_index_pixel b width height) by lia.
  set (j0 := pixel_index b width (offset_h + h) (offset_w + w) c).
  assert (Hj0 : 0 <= j0 < Z.of_nat (length d)).
  { rewrite Hlen, Hlen_data. apply pixel_index_bound; lia. }
  destruct (store_is_Some d j0 v Hj0) as [d' Hd'].
  exists d'. split; [done|]. split; [|split].
  - rewrite (length_store _ _ _ _ Hd'). done.
  - intros h' w' c' (Hh' & Hw' & Hc' & Hlex).
    destruct (decide (h' = h ∧ w' = w ∧ c' = c)) as [(-> & -> & ->)|Hne].
    + split; [by rewrite Hv|]. unfold pixel. fold j0.
      rewrite (load_store_eq _ _ _ _ Hd'). done.
    + destruct (Hval h' w' c') as [Hs Hp]; [unfold before; lia|].
      split; [done|]. rewrite <- Hp. unfold pixel.
      apply (load_store_ne _ _ _ _ _ Hd'). unfold j0. intros E.
      apply pixel_index_inj in E; lia.
  - intros j Hj. rewrite (load_store_ne _ _ _ _ _ Hd').
    + apply Hframe. intros h' w' c' (Hh' & Hw' & Hc' & Hlex).
      apply Hj. unfold before. lia.
    + intros <-. eapply (Hj h w c); [unfold before; lia|done].
Qed.

Lemma readScaled_loop_painted :
  ∃ d', readScaled_loop input b width offset_w offset_h d0 = Some d' ∧
        painted input b width offset_w offset_h
          (λ h w c, 0 <= h < width / 2 ∧ 0 <= w < width / 2 ∧ 0 <= c < b) d0 d'.
Proof.
  unfold readScaled_loop, SizeT.div.
  assert (Hn : 0 <= width / 2) by (apply Z.div_pos; lia).
  destruct (for_upto_inv
    (λ h d, painted input b width offset_w offset_h (before (width / 2) b h 0 0) d0 d)
    (λ h d, for_upto (width / 2) (λ w d,
       for_upto b (λ c d,
         readScaled_body input b width offset_w offset_h h w c d) d) d)
    (width / 2) d0 Hn) as (d' & Hd' & Hp).
  - apply painted_start.
  - intros h d1 Hh H1.
    destruct (for_upto_inv
      (λ w d, painted input b width offset_w offset_h (before (width / 2) b h w 0) d0 d)
      (λ w d, for_upto b (λ c d,
         readScaled_body input b width offset_w offset_h h w c d) d)
      (width / 2) d1 Hn H1) as (d2 & Hd2 & H2).
    + intros w d3 Hw H3.
      destruct (for_upto_inv
        (λ c d, painted input b width offset_w offset_h (before (width / 2) b h w c) d0 d)
        (λ c d, readScaled_body input b width offset_w offset_h h w c d)
        b d3 ltac:(lia) H3) as (d4 & Hd4 & H4).
      * intros c d5 Hc H5. by apply readScaled_body_painted.
      * exists d4. split; [done|]. revert H4. apply painted_ext.
        intros h' w' c'. unfold before. lia.
    + exists d2. split; [done|]. revert H2. apply painted_ext.
      intros h' w' c'. unfold before. lia.
  - exists d'. split; [done|]. revert Hp. apply painted_ext.
    intros h' w' c'. unfold before. lia.
Qed.

(** The rows from [width/2] on are left as they were. *)
Lemma readScaled_loop_rows_left d' h w c :
  readScaled_loop input b width offset_w offset_h d0 = Some d' →
  width / 2 <= h → 0 <= w → offset_w + w < width → 0 <= c < b →
  pixel d' b width (offset_h + h) (offset_w + w) c
  = pixel d0 b width (offset_h + h) (offset_w + w) c.
Proof.
  intros Hrun Hh Hw Hw' Hc.
  destruct readScaled_loop_painted as (d1 & Hd1 & _ & _ & Hframe).
  rewrite Hrun in Hd1. injection Hd1 as <-.
  apply Hframe. intros h' w' c' (Hh' & Hw'' & Hc') E.
  apply pixel_index_inj in E; lia.
Qed.
End Loop.

(** ** Rows of a buffer *)

Lemma rows_of_lookup data b width png_w png_h rows i :
  rows_of data b width png_w png_h = Some rows →
  0 <= i < png_h →
  ∃ r, rows !! Z.to_nat i = Some r ∧
       read_row data (row_offset b width i) (b * png_w) = Some r.
Proof.
  unfold rows_of. intros Hrows%mapM_Some_1 Hi.
  destruct (Forall2_lookup_l _ _ _ (Z.to_nat i) i Hrows) as (r & Hr & Hread).
  { rewrite lookup_seqZ. lia. }
  by exists r.
Qed.

Lemma rows_of_Some data b width png_w png_h (row : Z → list Z) :
  (∀ i, 0 <= i < png_h →
        read_row data (row_offset b width i) (b * png_w) = Some (row i)) →
  rows_of data b width png_w png_h = Some (row <$> seqZ 0 png_h).
Proof.
  intros Hrow. unfold rows_of. apply mapM_Some_2.
  apply Forall2_fmap_r, Forall_Forall2_diag, Forall_forall.
  intros i [j Hj]%list_elem_of_lookup_1.
  apply lookup_seqZ in Hj as [-> Hj]. apply Hrow. lia.
Qed.

Lemma row_offset_small b width height i :
  0 < b → 0 <= width → b * width * height < 2 ^ 64 → 0 <= i < height →
  row_offset b width i = b * i * width ∧
  0 <= b * i * width ∧ b * i * width + b * width <= b * width * height.
Proof.
  intros Hb Hw Hsize Hi. unfold row_offset.
  assert (Hle : b * i * width + b * width <= b * width * height).
  { replace (b * i * width + b * width) with (b * width * (i + 1)) by lia.
    apply Z.mul_le_mono_nonneg_l; [apply Z.mul_nonneg_nonneg|]; lia. }
  assert (H0 : 0 <= b * i * width)
    by (repeat apply Z.mul_nonneg_nonneg; lia).
  split; [|done].
  destruct (decide (width = 0)) as [->|Hne].
  - unfold SizeT.mul at 1. rewrite !Z.mul_0_r. reflexivity.
  - assert (b * i <= b * i * width).
    { rewrite <- (Z.mul_1_r (b * i)) at 1.
      apply Z.mul_le_mono_nonneg_l; [apply Z.mul_nonneg_nonneg|]; lia. }
    assert (0 <= b * width) by (apply Z.mul_nonneg_nonneg; lia).
    assert (0 <= b * i) by (apply Z.mul_nonneg_nonneg; lia).
    rewrite (SizeT_mul_small b i) by lia.
    rewrite SizeT_mul_small by lia. done.
Qed.

Lemma read_row_Some data off n r :
  read_row data off n = Some r →
  0 <= off ∧ 0 <= n ∧ off + n <= Z.of_nat (length data) ∧
  r = take (Z.to_nat n) (drop (Z.to_nat off) data).
Proof. unfold read_row. case_decide; [|done]. intros [= <-]. tauto. Qed.

(** Copying back the rows cut out of [data] rebuilds [data]. *)
Lemma copy_rows_of data dst b width height rows :
  0 < b → 0 <= width → 0 <= height →
  Z.of_nat (length data) = b * width * height →
  Z.of_nat (length data) < 2 ^ 64 →
  length dst = length data →
  rows_of data b width width height = Some rows →
  copy_rows rows b width height dst = Some data.
Proof.
  intros Hb Hw Hh Hlen Hsize Hdst Hrows. unfold copy_rows.
  destruct (for_upto_inv
    (λ i d, length d = length data ∧
            take (Z.to_nat (b * i * width)) d = take (Z.to_nat (b * i * width)) data)
    (λ i d, row ← rows !! Z.to_nat i;
            memcpy d (row_offset b width i) row (b * width)%sz)
    height dst Hh) as (d & -> & Hd & Htake).
  - split; [done|]. by rewrite Z.mul_0_r, Z.mul_0_l.
  - intros i d Hi [Hd Htake].
    destruct (rows_of_lookup _ _ _ _ _ _ i Hrows Hi) as (r & -> & Hr).
    destruct (row_offset_small b width height i) as (Eo & Ho & Hle); try lia.
    rewrite Eo in *. apply read_row_Some in Hr as (_ & Hn & Hfit & ->).
    assert (b * width < 2 ^ 64) by lia.
    rewrite (SizeT_mul_small b width) by lia. simpl.
    unfold memcpy. rewrite decide_True.
    2: { rewrite length_take, length_drop. lia. }
    eexists. split; [done|]. split.
    + rewrite !length_app, !length_take, !length_drop. lia.
    + replace (b * (i + 1) * width) with (b * i * width + b * width) by lia.
      rewrite Z2Nat.inj_add by lia.
      rewrite take_app_add'.
      2: { rewrite length_take. lia. }
      rewrite Htake.
      rewrite take_app_le.
      2: { rewrite !length_take, length_drop. lia. }
      rewrite !take_idemp. apply take_take_drop.
  - f_equal. rewrite <- (take_ge d (Z.to_nat (b * height * width))) by lia.
    rewrite <- (take_ge data (Z.to_nat (b * height * width))) by lia. done.
Qed.

(** ** Running [write] and [read] *)

Section IO.
Context {L : LibPNG}.

(** With the first three allocations granted, each of them is. *)
Lemma alloc_heads (al : list bool) :
  Forall (λ ok, ok = true) (take 3 al) →
  default true (head al) = true ∧
  default true (head (drop 1 al)) = true ∧
  default true (head (drop 1 (drop 1 al))) = true.
Proof.
  intros H. destruct al as [|a1 [|a2 [|a3 rest]]]; simpl in *; [done| | |];
    repeat match goal with
           | H : Forall _ (_ :: _) |- _ => apply Forall_cons in H as [-> H]
           end; done.
Qed.


Lemma after_allocations_add n m σ :
  after_allocations m (after_allocations n σ) = after_allocations (n + m) σ.
Proof. unfold after_allocations. simpl. by rewrite drop_drop. Qed.

Lemma alloc_ok_after n m σ :
  alloc_ok (n + m) σ → alloc_ok m (after_allocations n σ).
Proof.
  unfold alloc_ok. simpl. rewrite take_drop_commute. apply Forall_drop.
Qed.

Lemma alloc_ok_le n m σ : (n ≤ m)%nat → alloc_ok m σ → alloc_ok n σ.
Proof.
  unfold alloc_ok. intros Hle H.
  rewrite <- (Nat.min_l n m), <- take_take by done. by apply Forall_take.
Qed.

Lemma alloc_ok_dec n σ : alloc_ok n σ ∨ ¬ alloc_ok n σ.
Proof.
  unfold alloc_ok.
  destruct (decide (Forall (λ ok, ok = true) (take n (allocations σ)))); auto.
Qed.

(** [new]: granted, or refused. *)
Lemma new_uint8_array_granted n σ :
  alloc_ok 1 σ → new_uint8_array n σ = (Return (zeroed n), after_allocations 1 σ).
Proof.
  unfold alloc_ok, new_uint8_array. destruct σ as [fs wp op [|[] al] e]; simpl; try done.
  by intros [[=] _]%Forall_cons.
Qed.

Lemma new_uint8_array_refused n σ :
  ¬ alloc_ok 1 σ → new_uint8_array n σ = (Throw bad_alloc, after_allocations 1 σ).
Proof.
  unfold alloc_ok, new_uint8_array. destruct σ as [fs wp op [|[] al] e]; simpl; try done.
  - intros []. constructor.
  - intros []. rewrite take_0. by repeat constructor.
Qed.

Lemma SizeT_mul_nonneg x y : 0 <= (x * y)%sz.
Proof. unfold SizeT.mul, SizeT.wrap. apply Z.mod_pos_bound. done. Qed.

Lemma memset_zeroed n : 0 <= n → memset (zeroed n) 0 n = Some (zeroed n).
Proof.
  intros Hn. unfold memset, zeroed. rewrite length_replicate.
  rewrite decide_True by lia. rewrite drop_replicate, Nat.sub_diag. simpl.
  by rewrite app_nil_r.
Qed.

(** [readScaled] with a child, and [mipmap], once their buffer stands. *)
Lemma readScaled_granted data offset_w offset_h file width height colored σ :
  alloc_ok 1 σ →
  readScaled data offset_w offset_h (Some file) width height colored σ
  = bind (read file (zeroed (bytes_per_pixel colored * width * height)%sz)
            width height colored)
      (λ input, defined (readScaled_loop input (bytes_per_pixel colored) width
                           offset_w offset_h data))
      (after_allocations 1 σ).
Proof.
  intros Halloc. unfold readScaled. unfold bind at 1.
  by rewrite new_uint8_array_granted.
Qed.

Lemma readScaled_refused data offset_w offset_h file width height colored σ :
  ¬ alloc_ok 1 σ →
  readScaled data offset_w offset_h (Some file) width height colored σ
  = (Throw bad_alloc, after_allocations 1 σ).
Proof.
  intros Halloc. unfold readScaled. unfold bind at 1.
  by rewrite new_uint8_array_refused.
Qed.

Lemma mipmap_granted output width height colored nw ne sw se σ :
  alloc_ok 1 σ →
  mipmap output width height colored nw ne sw se σ
  = bind (readScaled (zeroed (bytes_per_pixel colored * width * height)%sz) 0 0 nw
            width height colored) (λ data,
    bind (readScaled data (width / 2)%sz 0 ne width height colored) (λ data,
    bind (readScaled data 0 (height / 2)%sz sw width height colored) (λ data,
    bind (readScaled data (width / 2)%sz (height / 2)%sz se width height colored) (λ data,
    write output data width height colored))))
      (after_allocations 1 σ).
Proof.
  intros Halloc. unfold mipmap. unfold bind at 1.
  rewrite new_uint8_array_granted by done. unfold bind at 1.
  by rewrite memset_zeroed by apply SizeT_mul_nonneg.
Qed.

Lemma mipmap_refused output width height colored nw ne sw se σ :
  ¬ alloc_ok 1 σ →
  mipmap output width height colored nw ne sw se σ
  = (Throw bad_alloc, after_allocations 1 σ).
Proof.
  intros Halloc. unfold mipmap. unfold bind at 1.
  by rewrite new_uint8_array_refused.
Qed.

(** An allocation was refused: the call has thrown, and the oracle was not
    all-granting. *)
Ltac allocation_failed :=
  eexists _, _; split; [done|];
  intros (? & ? & ?)%alloc_heads; congruence.

(** Unfold the primitives that only move the world along. *)
Ltac step_world :=
  unfold fclose, file_contents, set_files, set_open_files, set_allocations; simpl.

Lemma write_returns filename data width height colored σ rows s :
  filename ∉ write_protected σ →
  alloc_ok 2 σ →
  png_set_IHDR (PngUInt32.of_size_t width) (PngUInt32.of_size_t height) 8
    (color_type_of colored) = true →
  rows_of data (bytes_per_pixel colored) width
    (PngUInt32.of_size_t width) (PngUInt32.of_size_t height) = Some rows →
  png_write_png (PngImage (PngUInt32.of_size_t width) (PngUInt32.of_size_t height) 8
                   (color_type_of colored) rows) = (s, true) →
  write filename data width height colored σ
  = (Return tt,
     World (<[filename := s]> (<[filename := stream_empty]> (files σ)))
       (write_protected σ) (open_files σ) (drop 2 (allocations σ)) (errno σ)).
Proof.
  intros Hwp Halloc Hihdr Hrows Hwrite.
  destruct σ as [fs wp op al e]. unfold alloc_ok in Halloc. simpl in *.
  unfold write, bind, fopen_wb. simpl. rewrite decide_False by done.
  unfold png_create_struct. simpl.
  assert (Hal : ∃ al', al = [] ∨ al = [true] ∨ al = true :: true :: al').
  { destruct al as [|a1 [|a2 rest]]; simpl in *; [exists []; auto| |].
    - apply Forall_cons in Halloc as [-> _]. exists []. auto.
    - apply Forall_cons in Halloc as [-> Halloc].
      apply Forall_cons in Halloc as [-> _]. exists rest. auto. }
  destruct Hal as (al' & [->|[->| ->]]); simpl;
    rewrite Hihdr; simpl; rewrite Hrows; simpl; rewrite Hwrite; simpl;
    step_world;
    by rewrite decide_True by done.
Qed.

Lemma write_Return_inv filename data width height colored σ σ' :
  write filename data width height colored σ = (Return tt, σ') →
  ∃ rows s,
    png_set_IHDR (PngUInt32.of_size_t width) (PngUInt32.of_size_t height) 8
      (color_type_of colored) = true ∧
    rows_of data (bytes_per_pixel colored) width
      (PngUInt32.of_size_t width) (PngUInt32.of_size_t height) = Some rows ∧
    png_write_png (PngImage (PngUInt32.of_size_t width) (PngUInt32.of_size_t height) 8
                     (color_type_of colored) rows) = (s, true) ∧
    σ' = World (<[filename := s]> (<[filename := stream_empty]> (files σ)))
           (write_protected σ) (open_files σ) (drop 2 (allocations σ)) (errno σ).
Proof.
  destruct σ as [fs wp op al e].
  unfold write, bind, fopen_wb. simpl. case_decide; [done|].
  unfold png_create_struct. simpl.
  destruct (default true (head al)); simpl; [|done].
  destruct (default true (head (drop 1 al))); simpl; [|done].
  destruct (png_set_IHDR _ _ _ _) eqn:Hihdr; simpl; [|done].
  destruct (rows_of _ _ _ _ _) as [rows|] eqn:Hrows; simpl; [|done].
  destruct (png_write_png _) as [s ok] eqn:Hwrite. simpl.
  destruct ok; simpl; [|done].
  step_world.
  rewrite decide_True by done. rewrite drop_drop. intros [= <-].
  by exists rows, s.
Qed.

Lemma read_returns filename data width height colored σ s img data' :
  files σ !! filename = Some s →
  alloc_ok 3 σ →
  png_read_png s = Some img →
  image_width img = width → image_height img = height →
  image_bit_depth img = 8 → image_color_type img = color_type_of colored →
  copy_rows (image_rows img) (bytes_per_pixel colored) width height data = Some data' →
  read filename data width height colored σ
  = (Return data',
     World (files σ) (write_protected σ) (open_files σ) (drop 3 (allocations σ)) (errno σ)).
Proof.
  intros Hfile Halloc Hread Hw Hh Hd Hc Hcopy.
  destruct σ as [fs wp op al e]. unfold alloc_ok in Halloc. simpl in *.
  unfold read, bind, fopen_rb. simpl. rewrite Hfile.
  unfold png_create_struct. simpl.
  destruct (alloc_heads al Halloc) as (H1 & H2 & H3).
  rewrite H1; simpl. rewrite H2; simpl. rewrite H3; simpl.
  step_world. rewrite Hfile. simpl. rewrite Hread.
  rewrite decide_False by (intros [?|[?|[?|?]]]; congruence).
  rewrite Hcopy. simpl.
  step_world.
  rewrite decide_True by done. by rewrite !drop_drop.
Qed.

Lemma read_mismatch filename data width height colored σ s img :
  files σ !! filename = Some s →
  png_read_png s = Some img →
  image_width img ≠ width ∨ image_height img ≠ height ∨
  image_bit_depth img ≠ 8 ∨ image_color_type img ≠ color_type_of colored →
  ∃ what σ',
    read filename data width height colored σ = (Throw (runtime_error what), σ') ∧
    (alloc_ok 3 σ →
     what = "unable to read PNG file"%string ∧
     files σ' = files σ ∧ open_files σ' = open_files σ).
Proof.
  intros Hfile Hread Hbad.
  destruct σ as [fs wp op al e]. unfold alloc_ok. simpl in *.
  unfold read, bind, fopen_rb. simpl. rewrite Hfile.
  unfold png_create_struct. simpl.
  destruct (default true (head al)) eqn:E1; simpl.
  2: by allocation_failed.
  destruct (default true (head (drop 1 al))) eqn:E2; simpl.
  2: by allocation_failed.
  destruct (default true (head (drop 1 (drop 1 al)))) eqn:E3; simpl.
  2: by allocation_failed.
  step_world. rewrite Hfile. simpl. rewrite Hread.
  rewrite decide_True by done.
  step_world.
  rewrite decide_True by done. eexists _, _. split; [done|]. done.
Qed.
End IO.

(** ** The codec boundary and the composer *)


Lemma length_zeroed n : 0 <= n → Z.of_nat (length (zeroed n)) = n.
Proof. intros. unfold zeroed. rewrite length_replicate. lia. Qed.

Lemma PngUInt32_le x : 0 <= x → 0 <= PngUInt32.of_size_t x <= x.
Proof.
  intros. unfold PngUInt32.of_size_t. split.
  - apply Z.mod_pos_bound. lia.
  - apply Z.mod_le; lia.
Qed.


Section Boundary.
Context {L : LibPNG}.


(** C5: when the decoded image's width, height, bit depth or color type
    differs from what was asked, [read] throws a [std::runtime_error] and
    returns no buffer, whatever else happens; when libpng's allocations
    succeed it is the error of the [setjmp] branch, raised with the file
    closed and no file changed. *)
Theorem read_rejects_mismatch filename data width height colored σ s img :
  files σ !! filename = Some s →
  png_read_png s = Some img →
  image_width img ≠ width ∨ image_height img ≠ height ∨
  image_bit_depth img ≠ 8 ∨ image_color_type img ≠ color_type_of colored →
  ∃ what σ',
    read filename data width height colored σ = (Throw (runtime_error what), σ') ∧
    (alloc_ok 3 σ →
     what = "unable to read PNG file"%string ∧
     files σ' = files σ ∧ open_files σ' = open_files σ).
Proof. apply read_mismatch. Qed.

(** C6, for dimensions that fit libpng's 32-bit header fields: with a
    lossless libpng, when [write] has returned normally on a buffer of
    [bytes_per_pixel * width * height] bytes and libpng's allocations
    succeed, [read] with the same width, height and format returns that
    very buffer, whatever the destination held. *)
Theorem write_read_roundtrip filename data dst width height colored σ σ' :
  png_lossless L →
  0 <= width < 2 ^ 32 → 0 <= height < 2 ^ 32 →
  Z.of_nat (length data) = bytes_per_pixel colored * width * height →
  Z.of_nat (length data) < 2 ^ 64 →
  length dst = length data →
  write filename data width height colored σ = (Return tt, σ') →
  alloc_ok 3 σ' →
  ∃ σ'', read filename dst width height colored σ' = (Return data, σ'').
Proof.
  intros Hlossless Hw Hh Hlen Hsize Hdst Hwrite Halloc.
  apply write_Return_inv in Hwrite as (rows & s & _ & Hrows & Hs & ->).
  assert (Hb : 0 < bytes_per_pixel colored) by (by destruct colored).
  unfold PngUInt32.of_size_t in *. rewrite !Z.mod_small in * by lia.
  eexists.
  eapply read_returns;
    [simpl; apply lookup_insert_eq | done | exact (Hlossless _ _ Hs)
    | done | done | done | done | simpl; apply copy_rows_of; (done || lia)].
Qed.
End Boundary.

(** ** The round trip *)

Lemma plain_png_lossless : png_lossless plain_png.
Proof. intros img s [= <-]. reflexivity. Qed.

Lemma write_read_roundtrip_witness :
  ∃ σ'',
    read (L := plain_png) "tile.png" (zeroed 16) 2 4 false
      (snd (write (L := plain_png) "tile.png" tall_tile_bytes 2 4 false (world_of [])))
    = (Return tall_tile_bytes, σ'').
Proof.
  apply (write_read_roundtrip (L := plain_png) "tile.png" tall_tile_bytes (zeroed 16)
           2 4 false (world_of [])).
  - exact plain_png_lossless.
  - lia.
  - lia.
  - reflexivity.
  - vm_compute. reflexivity.
  - reflexivity.
  - apply injective_projections; [vm_compute; reflexivity | reflexivity].
  - vm_compute. constructor.
Defined.

Lemma read_mismatch_throws {L : LibPNG} filename data width height colored σ s img :
  files σ !! filename = Some s →
  png_read_png s = Some img →
  image_width img ≠ width ∨ image_height img ≠ height ∨
  image_bit_depth img ≠ 8 ∨ image_color_type img ≠ color_type_of colored →
  ∃ what σ', read filename data width height colored σ = (Throw (runtime_error what), σ').
Proof.
  intros Hfile Hread Hbad.
  destruct (read_mismatch filename data width height colored σ s img Hfile Hread Hbad)
    as (what & σ' & Hrun & _).
  by exists what, σ'.
Qed.

(** A buffer one pixel high and 2^32 + 1 pixels wide: [png_set_IHDR] is
    passed the width 1, and reading the file back with the buffer's width
    is refused. *)
Lemma wide_buffer_not_read_back (data dst : list Z) :
  Z.of_nat (length data) = 2 * (2 ^ 32 + 1) →
  ∃ σ',
    write (L := plain_png) "tile.png" data (2 ^ 32 + 1) 1 false (world_of [])
    = (Return tt, σ') ∧
    alloc_ok 3 σ' ∧
    ∃ what σ'',
      read "tile.png" dst (2 ^ 32 + 1) 1 false σ' = (Throw (runtime_error what), σ'').
Proof.
  intros Hlen. eexists. split; [|split].
  - eapply (write_returns (L := plain_png)).
    + set_solver.
    + constructor.
    + reflexivity.
    + change (PngUInt32.of_size_t (2 ^ 32 + 1)) with 1.
      change (PngUInt32.of_size_t 1) with 1.
      unfold rows_of. change (seqZ 0 1) with [0]. cbn [mapM].
      change (row_offset (bytes_per_pixel false) (2 ^ 32 + 1) 0) with 0.
      unfold read_row. rewrite decide_True by (cbn; lia). reflexivity.
    + reflexivity.
  - constructor.
  - eapply (read_mismatch_throws (L := plain_png)).
    + simpl. apply lookup_insert_eq.
    + reflexivity.
    + left. vm_compute. discriminate.
Qed.

(** C6 as stated, for every width and height, does not hold: the buffer
    above is written and cannot be read back. *)
Lemma roundtrip_truncated_width :
  ¬ (∀ (L : LibPNG) filename data dst width height colored (σ σ' : world),
       png_lossless L →
       Z.of_nat (length data) = bytes_per_pixel colored * width * height →
       Z.of_nat (length data) < 2 ^ 64 →
       length dst = length data →
       write filename data width height colored σ = (Return tt, σ') →
       alloc_ok 3 σ' →
       ∃ σ'', read filename dst width height colored σ' = (Return data, σ'')).
Proof.
  intros H.
  pose (data := replicate (Z.to_nat (2 * (2 ^ 32 + 1))) 0).
  assert (Hlen : Z.of_nat (length data) = 2 * (2 ^ 32 + 1)).
  { unfold data. rewrite length_replicate. apply Z2Nat.id. lia. }
  destruct (wide_buffer_not_read_back data data Hlen)
    as (σ' & Hwrite & Halloc & what & σ'' & Hread).
  destruct (H plain_png "tile.png"%string data data (2 ^ 32 + 1) 1 false (world_of []) σ')
    as (σ3 & Hback).
  - exact plain_png_lossless.
  - rewrite Hlen. reflexivity.
  - rewrite Hlen. lia.
  - reflexivity.
  - exact Hwrite.
  - exact Halloc.
  - rewrite Hread in Hback. discriminate Hback.
Qed.

(** ** The row loop and tiles that are not square *)

(** C1, on a tile taller than wide.  The specification has every output pixel
    [(h, w)] with [0 <= h < height/2] and [0 <= w < width/2] written with
    its average.  On the 2x4 tile the row loop, bounded by [width/2 = 1]
    and not by [height/2 = 2], stops after row 0: the output pixel
    [(1, 0)] lies in the range, its box average is (130, 140), and the
    parent buffer still holds there the 7s it held before the call. *)
Theorem readScaled_tall_tile_rows :
  fst (readScaled (L := plain_png) (replicate 16 7) 0 0 (Some "nw.png") 2 4 false
         (world_of [("nw.png", tall_tile)]))
  = Return [40; 50; 7; 7; 7; 7; 7; 7; 7; 7; 7; 7; 7; 7; 7; 7] ∧
  (0 <= 1 < 4 / 2 ∧ 0 <= 0 < 2 / 2) ∧
  box_average tall_tile_bytes 2 2 1 0 0 = Some 130 ∧
  box_average tall_tile_bytes 2 2 1 0 1 = Some 140 ∧
  pixel [40; 50; 7; 7; 7; 7; 7; 7; 7; 7; 7; 7; 7; 7; 7; 7] 2 2 (0 + 1) (0 + 0) 0 = Some 7 ∧
  pixel [40; 50; 7; 7; 7; 7; 7; 7; 7; 7; 7; 7; 7; 7; 7; 7] 2 2 (0 + 1) (0 + 0) 1 = Some 7.
Proof. vm_compute. repeat split; congruence. Qed.

(** C3, on the same tile.  Composing with the north-west child alone
    leaves the other three quadrants zero, but the north-west quadrant
    (rows 0 and 1, column 0) is not the downsample of the child: its
    second pixel should be (130, 140) and the file has (0, 0) there. *)
Theorem mipmap_tall_tile_quadrant :
  let run := mipmap (L := plain_png) "out.png" 2 4 false (Some "nw.png") None None None
               (world_of [("nw.png", tall_tile)]) in
  fst run = Return tt ∧
  files (snd run) !! "out.png"
  = Some (Some (PngImage 2 4 8 PNG_COLOR_TYPE_GRAY_ALPHA
                  [[40; 50; 0; 0]; [0; 0; 0; 0]; [0; 0; 0; 0]; [0; 0; 0; 0]])) ∧
  box_average tall_tile_bytes 2 2 0 0 0 = Some 40 ∧
  box_average tall_tile_bytes 2 2 0 0 1 = Some 50 ∧
  box_average tall_tile_bytes 2 2 1 0 0 = Some 130 ∧
  box_average tall_tile_bytes 2 2 1 0 1 = Some 140.
Proof. vm_compute. repeat split; congruence. Qed.

(** C9, on a tile wider than tall.  On the 4x2 tile the row loop runs
    [h = 0, 1]; the decoded child has 16 bytes, and at [h = 1] the loop
    reads [input[16]]: the call is undefined, and so is the composition
    that makes it. *)
Theorem readScaled_wide_tile_out_of_bounds :
  fst (readScaled (L := plain_png) (zeroed 16) 0 0 (Some "nw.png") 4 2 false
         (world_of [("nw.png", wide_tile)])) = Undefined ∧
  fst (mipmap (L := plain_png) "out.png" 4 2 false (Some "nw.png") None None None
         (world_of [("nw.png", wide_tile)])) = Undefined ∧
  fst (read (L := plain_png) "nw.png" (zeroed 16) 4 2 false
         (world_of [("nw.png", wide_tile)])) = Return (concat (image_rows wide_tile)) ∧
  length (concat (image_rows wide_tile)) = 16%nat ∧
  input_index 2 4 1 0 0 = 16 ∧
  load (concat (image_rows wide_tile)) (input_index 2 4 1 0 0) = None.
Proof. vm_compute. repeat split; congruence. Qed.

(** C2, on a tile taller than wide whose bytes are all 9.  The
    specification has the downsampled value at every output coordinate
    [(h, w)] with [0 <= h < height/2] and [0 <= w < width/2] equal to the
    sum of its 2x2 block divided by 4, rounded down, and a uniform block
    give its own value.  The output pixel [(1, 0)] of the 2x4 tile is in
    that range and its block holds 9 four times, yet after [readScaled]
    the parent buffer holds there the 0 it held before, and so does the
    file [mipmap] writes: the row loop never gets to [h = 1].  At [(0, 0)],
    where the loop does get, the value is the 9 of the block. *)
Theorem readScaled_uniform_tile_value :
  fst (readScaled (L := plain_png) (zeroed 16) 0 0 (Some "nw.png") 2 4 false
         (world_of [("nw.png", uniform_tile)]))
  = Return [9; 9; 0; 0; 0; 0; 0; 0; 0; 0; 0; 0; 0; 0; 0; 0] ∧
  (0 <= 1 < 4 / 2 ∧ 0 <= 0 < 2 / 2) ∧
  box_average (concat (image_rows uniform_tile)) 2 2 1 0 0 = Some 9 ∧
  box_average (concat (image_rows uniform_tile)) 2 2 1 0 1 = Some 9 ∧
  pixel [9; 9; 0; 0; 0; 0; 0; 0; 0; 0; 0; 0; 0; 0; 0; 0] 2 2 (0 + 1) (0 + 0) 0 = Some 0 ∧
  pixel [9; 9; 0; 0; 0; 0; 0; 0; 0; 0; 0; 0; 0; 0; 0; 0] 2 2 (0 + 1) (0 + 0) 1 = Some 0 ∧
  box_average (concat (image_rows uniform_tile)) 2 2 0 0 0 = Some 9 ∧
  pixel [9; 9; 0; 0; 0; 0; 0; 0; 0; 0; 0; 0; 0; 0; 0; 0] 2 2 (0 + 0) (0 + 0) 0 = Some 9 ∧
  files (snd (mipmap (L := plain_png) "out.png" 2 4 false (Some "nw.png") None None None
                (world_of [("nw.png", uniform_tile)]))) !! "out.png"
  = Some (Some (PngImage 2 4 8 PNG_COLOR_TYPE_GRAY_ALPHA
                  [[9; 9; 0; 0]; [0; 0; 0; 0]; [0; 0; 0; 0]; [0; 0; 0; 0]])).
Proof. vm_compute. repeat split; congruence. Qed.

(** ** File handles *)

(** C7, when libpng cannot allocate.  If creating the write struct, the
    read struct or an info struct fails, [write] and [read] throw with the
    file they opened still open; on the [setjmp] path (last line: a tile of
    the wrong size) the handle is closed. *)
Theorem struct_failure_leaks_file :
  outcome_and_handles (write (L := plain_png) "out.png" tall_tile_bytes 2 4 false (world_with [] [false]))
  = (Throw (runtime_error "unable to create PNG write struct"), ["out.png"]) ∧
  outcome_and_handles (write (L := plain_png) "out.png" tall_tile_bytes 2 4 false
         (world_with [] [true; false]))
  = (Throw (runtime_error "unable to create PNG info struct"), ["out.png"]) ∧
  outcome_and_handles (read (L := plain_png) "nw.png" (zeroed 16) 2 4 false
         (world_with [("nw.png", tall_tile)] [false]))
  = (Throw (runtime_error "unable to create PNG read struct"), ["nw.png"]) ∧
  outcome_and_handles (read (L := plain_png) "nw.png" (zeroed 16) 2 4 false
         (world_with [("nw.png", tall_tile)] [true; false]))
  = (Throw (runtime_error "unable to create PNG info struct"), ["nw.png"]) ∧
  outcome_and_handles (read (L := plain_png) "nw.png" (zeroed 16) 2 4 false
         (world_with [("nw.png", tall_tile)] [true; true; false]))
  = (Throw (runtime_error "unable to create PNG info struct"), ["nw.png"]) ∧
  outcome_and_handles (read (L := plain_png) "nw.png" (zeroed 16) 4 2 false
         (world_with [("nw.png", tall_tile)] []))
  = (Throw (runtime_error "unable to read PNG file"), []).
Proof. vm_compute. repeat split; congruence. Qed.

(** ** The double tag *)

(** C8: constructing a [DoubleTag] either succeeds, and then at least 8
    bytes remained, the tag points at the old cursor position and the
    cursor has advanced by exactly 8 over unchanged bytes; or it fails, and
    then fewer than 8 bytes remained. *)
Theorem DoubleTag_reads_8_bytes (buffer : NBT.Buffer) :
  match NBT.DoubleTag_new buffer with
  | Some (tag, buffer') =>
      (8 ≤ NBT.remaining buffer)%nat ∧
      NBT.ptr tag = NBT.buffer_pos buffer ∧
      NBT.buffer_bytes buffer' = NBT.buffer_bytes buffer ∧
      NBT.buffer_pos buffer' = (NBT.buffer_pos buffer + 8)%nat ∧
      (NBT.remaining buffer' + 8 = NBT.remaining buffer)%nat
  | None => (NBT.remaining buffer < 8)%nat
  end.
Proof.
  unfold NBT.DoubleTag_new, NBT.Buffer_get. case_decide; simpl.
  - unfold NBT.remaining in *. simpl. repeat split; try done; lia.
  - lia.
Qed.

(** ** Instances on examples *)


Lemma read_rejects_mismatch_witness :
  ∃ what σ',
    read (L := plain_png) "nw.png" (zeroed 16) 4 2 false (world_of [("nw.png"%string, tall_tile)])
    = (Throw (runtime_error what), σ') ∧
    (alloc_ok 3 (world_of [("nw.png"%string, tall_tile)]) →
     what = "unable to read PNG file"%string ∧
     files σ' = files (world_of [("nw.png"%string, tall_tile)]) ∧
     open_files σ' = open_files (world_of [("nw.png"%string, tall_tile)])).
Proof.
  apply (read_rejects_mismatch (L := plain_png) "nw.png" (zeroed 16) 4 2 false
           (world_of [("nw.png"%string, tall_tile)]) (Some tall_tile) tall_tile).
  - vm_compute. reflexivity.
  - reflexivity.
  - left. vm_compute. discriminate.
Defined.

(** * Further properties of the code *)

(** ** The average of four bytes *)

(** X1: the value stored for a 2x2 block lies between the smallest and the
    largest of its four bytes, and four times it is at most 3 below their
    sum: the average is rounded down, never up. *)
Theorem average4_between x0 x1 x2 x3 :
  UInt8.valid x0 → UInt8.valid x1 → UInt8.valid x2 → UInt8.valid x3 →
  Z.min (Z.min x0 x1) (Z.min x2 x3) <= UInt8.of_int (average4 x0 x1 x2 x3)
    <= Z.max (Z.max x0 x1) (Z.max x2 x3) ∧
  4 * UInt8.of_int (average4 x0 x1 x2 x3) <= x0 + x1 + x2 + x3
    <= 4 * UInt8.of_int (average4 x0 x1 x2 x3) + 3.
Proof.
  intros H0 H1 H2 H3. rewrite average4_floor by done.
  unfold UInt8.valid in *.
  pose proof (Z.div_mod (x0 + x1 + x2 + x3) 4 ltac:(lia)).
  pose proof (Z.mod_pos_bound (x0 + x1 + x2 + x3) 4 ltac:(lia)).
  lia.
Qed.

Lemma average4_between_witness :
  Z.min (Z.min 10 30) (Z.min 50 73) <= UInt8.of_int (average4 10 30 50 73)
    <= Z.max (Z.max 10 30) (Z.max 50 73) ∧
  4 * UInt8.of_int (average4 10 30 50 73) <= 10 + 30 + 50 + 73
    <= 4 * UInt8.of_int (average4 10 30 50 73) + 3.
Proof. apply average4_between; unfold UInt8.valid; lia. Defined.

(** X2: the stored value is monotone: raising bytes of the block never
    lowers it. *)
Theorem average4_monotone x0 x1 x2 x3 y0 y1 y2 y3 :
  UInt8.valid x0 → UInt8.valid x1 → UInt8.valid x2 → UInt8.valid x3 →
  UInt8.valid y0 → UInt8.valid y1 → UInt8.valid y2 → UInt8.valid y3 →
  x0 <= y0 → x1 <= y1 → x2 <= y2 → x3 <= y3 →
  UInt8.of_int (average4 x0 x1 x2 x3) <= UInt8.of_int (average4 y0 y1 y2 y3).
Proof.
  intros. rewrite !average4_floor by done. apply Z.div_le_mono; lia.
Qed.

Lemma average4_monotone_witness :
  UInt8.of_int (average4 0 0 0 3) <= UInt8.of_int (average4 0 1 0 3).
Proof. apply average4_monotone; unfold UInt8.valid; lia. Defined.

(** ** What the loops keep, whatever the geometry *)

Lemma for_loop_preserves {S : Type} (I : S → Prop) (body : Z → S → option S) n i0 s s' :
  (∀ i s s', I s → body i s = Some s' → I s') →
  I s → for_loop n i0 body s = Some s' → I s'.
Proof.
  intros Hbody. revert i0 s. induction n as [|n IH]; intros i0 s Hs; simpl.
  - by intros [= <-].
  - destruct (body i0 s) as [s1|] eqn:E; [|done]. eauto.
Qed.

Lemma UInt8_of_int_valid x : UInt8.valid (UInt8.of_int x).
Proof. unfold UInt8.valid, UInt8.of_int. apply Z.mod_pos_bound. lia. Qed.

(** A step of the loops that is defined is one store of a byte. *)
Lemma readScaled_body_Some input b width offset_w offset_h h w c d d' :
  readScaled_body input b width offset_w offset_h h w c d = Some d' →
  ∃ i v, UInt8.valid v ∧ store d i v = Some d'.
Proof.
  unfold readScaled_body. cbv zeta. intros Hd.
  repeat match type of Hd with
         | context [load ?buf ?i] =>
             destruct (load buf i); simpl in Hd; [|discriminate Hd]
         end.
  eexists _, _. split; [|exact Hd]. apply UInt8_of_int_valid.
Qed.

(** What every store of a byte keeps, the loops keep. *)
Lemma readScaled_loop_keeps (I : list Z → Prop) input b width offset_w offset_h data data' :
  (∀ d i v d', I d → UInt8.valid v → store d i v = Some d' → I d') →
  I data →
  readScaled_loop input b width offset_w offset_h data = Some data' →
  I data'.
Proof.
  intros Hstore. unfold readScaled_loop, for_upto.
  intros Hdata. apply (for_loop_preserves I); [|done].
  intros h d1 d2 H1. apply (for_loop_preserves I); [|done].
  intros w d3 d4 H3. apply (for_loop_preserves I); [|done].
  intros c d5 d6 H5 (i & v & Hv & Hs)%readScaled_body_Some. eauto.
Qed.

Lemma store_valid d i v d' :
  Forall UInt8.valid d → UInt8.valid v → store d i v = Some d' → Forall UInt8.valid d'.
Proof.
  unfold store. intros Hd Hv. case_decide; [|done]. intros [= <-].
  apply Forall_insert; done.
Qed.

Lemma readScaled_loop_valid input b width offset_w offset_h data data' :
  Forall UInt8.valid data →
  readScaled_loop input b width offset_w offset_h data = Some data' →
  Forall UInt8.valid data'.
Proof. apply readScaled_loop_keeps. apply store_valid. Qed.

(** ** Passes over the same parent buffer *)

Lemma list_eq_load (d1 d2 : list Z) : (∀ j, load d1 j = load d2 j) → d1 = d2.
Proof.
  intros H. apply list_eq. intros i. specialize (H (Z.of_nat i)).
  unfold load in H. rewrite !decide_True in H by lia.
  by rewrite Nat2Z.id in H.
Qed.

(** Whether a byte of the parent belongs to an output pixel of the loops. *)
Lemma visited_or_not b width offset_w offset_h j :
  (∃ h w c, visited b width h w c ∧
            j = pixel_index b width (offset_h + h) (offset_w + w) c) ∨
  (∀ h w c, visited b width h w c →
            j ≠ pixel_index b width (offset_h + h) (offset_w + w) c).
Proof.
  destruct (decide (Exists (λ h, Exists (λ w, Exists (λ c,
              j = pixel_index b width (offset_h + h) (offset_w + w) c)
              (seqZ 0 b)) (seqZ 0 (width / 2))) (seqZ 0 (width / 2))))
    as [Hyes|Hno].
  - left. apply Exists_exists in Hyes as (h & Hh%elem_of_seqZ & Hyes).
    apply Exists_exists in Hyes as (w & Hw%elem_of_seqZ & Hyes).
    apply Exists_exists in Hyes as (c & Hc%elem_of_seqZ & Hyes).
    exists h, w, c. unfold visited. split; [lia|done].
  - right. intros h w c (Hh & Hw & Hc) E. apply Hno.
    apply Exists_exists. exists h. split; [apply elem_of_seqZ; lia|].
    apply Exists_exists. exists w. split; [apply elem_of_seqZ; lia|].
    apply Exists_exists. exists c. split; [apply elem_of_seqZ; lia|done].
Qed.

(** Two squares that do not overlap have no byte in common. *)
Lemma quadrants_apart b width ow1 oh1 ow2 oh2 h1 w1 c1 h2 w2 c2 :
  0 <= ow1 ∧ ow1 + width / 2 <= width → 0 <= ow2 ∧ ow2 + width / 2 <= width →
  ow1 + width / 2 <= ow2 ∨ ow2 + width / 2 <= ow1 ∨
  oh1 + width / 2 <= oh2 ∨ oh2 + width / 2 <= oh1 →
  visited b width h1 w1 c1 → visited b width h2 w2 c2 →
  pixel_index b width (oh1 + h1) (ow1 + w1) c1
  ≠ pixel_index b width (oh2 + h2) (ow2 + w2) c2.
Proof.
  intros How1 How2 Hapart (Hh1 & Hw1 & Hc1) (Hh2 & Hw2 & Hc2) E.
  apply pixel_index_inj in E; lia.
Qed.

Section Passes.
Variables b width height : Z.
Hypothesis Hb : 0 < b.
Hypothesis Hwidth : 0 <= width.
Hypothesis Hrows : 2 * (width / 2) <= height.
Hypothesis Hsize : b * width * height < 2 ^ 64.

(** One pass, on any parent buffer of the tile's size. *)
Lemma readScaled_loop_pass input offset_w offset_h d0 :
  Z.of_nat (length input) = b * width * height →
  Forall UInt8.valid input →
  Z.of_nat (length d0) = b * width * height →
  0 <= offset_w ∧ offset_w + width / 2 <= width →
  0 <= offset_h ∧ offset_h + width / 2 <= height →
  ∃ d', readScaled_loop input b width offset_w offset_h d0 = Some d' ∧
        painted input b width offset_w offset_h (visited b width) d0 d'.
Proof.
  intros Hin Hvalid Hd How Hoh.
  apply (readScaled_loop_painted input b width height); try done. lia.
Qed.

(** X4: two passes of the loops into squares of the parent that do not
    overlap can be made in either order: both orders are defined and leave
    the same buffer. *)
Theorem readScaled_loop_commute input1 input2 ow1 oh1 ow2 oh2 data :
  Z.of_nat (length input1) = b * width * height → Forall UInt8.valid input1 →
  Z.of_nat (length input2) = b * width * height → Forall UInt8.valid input2 →
  Z.of_nat (length data) = b * width * height →
  0 <= ow1 ∧ ow1 + width / 2 <= width → 0 <= oh1 ∧ oh1 + width / 2 <= height →
  0 <= ow2 ∧ ow2 + width / 2 <= width → 0 <= oh2 ∧ oh2 + width / 2 <= height →
  ow1 + width / 2 <= ow2 ∨ ow2 + width / 2 <= ow1 ∨
  oh1 + width / 2 <= oh2 ∨ oh2 + width / 2 <= oh1 →
  ∃ data',
    readScaled_loop input1 b width ow1 oh1 data
      ≫= readScaled_loop input2 b width ow2 oh2 = Some data' ∧
    readScaled_loop input2 b width ow2 oh2 data
      ≫= readScaled_loop input1 b width ow1 oh1 = Some data'.
Proof.
  intros Hin1 Hv1 Hin2 Hv2 Hd How1 Hoh1 How2 Hoh2 Hapart.
  destruct (readScaled_loop_pass input1 ow1 oh1 data) as (d1 & -> & P1); try done.
  destruct (readScaled_loop_pass input2 ow2 oh2 data) as (d2 & -> & P2); try done.
  simpl.
  destruct (readScaled_loop_pass input2 ow2 oh2 d1) as (d12 & -> & P12); try done.
  { destruct P1 as [-> _]. done. }
  destruct (readScaled_loop_pass input1 ow1 oh1 d2) as (d21 & -> & P21); try done.
  { destruct P2 as [-> _]. done. }
  exists d12. split; [done|]. f_equal. apply list_eq_load. intros j.
  destruct P1 as (_ & V1 & F1), P2 as (_ & V2 & F2),
           P12 as (_ & V12 & F12), P21 as (_ & V21 & F21).
  destruct (visited_or_not b width ow2 oh2 j) as [(h & w & c & Hv & ->)|Hn2].
  - destruct (V12 h w c Hv) as [_ E12]. unfold pixel in E12. rewrite E12.
    destruct (V2 h w c Hv) as [_ E2]. unfold pixel in E2. rewrite <- E2.
    apply F21. intros h1 w1 c1 Hv1'. apply not_eq_sym. by apply quadrants_apart.
  - rewrite (F12 j Hn2).
    destruct (visited_or_not b width ow1 oh1 j) as [(h & w & c & Hv & ->)|Hn1].
    + destruct (V1 h w c Hv) as [_ E1]. unfold pixel in E1. rewrite E1.
      destruct (V21 h w c Hv) as [_ E21]. unfold pixel in E21. by rewrite E21.
    + rewrite (F1 j Hn1), (F21 j Hn1). by rewrite (F2 j Hn2).
Qed.

(** X5: a pass of the loops made a second time changes nothing. *)
Theorem readScaled_loop_idempotent input offset_w offset_h data :
  Z.of_nat (length input) = b * width * height → Forall UInt8.valid input →
  Z.of_nat (length data) = b * width * height →
  0 <= offset_w ∧ offset_w + width / 2 <= width →
  0 <= offset_h ∧ offset_h + width / 2 <= height →
  ∃ data',
    readScaled_loop input b width offset_w offset_h data = Some data' ∧
    readScaled_loop input b width offset_w offset_h data' = Some data'.
Proof.
  intros Hin Hv Hd How Hoh.
  destruct (readScaled_loop_pass input offset_w offset_h data) as (d1 & E1 & P1);
    try done.
  destruct (readScaled_loop_pass input offset_w offset_h d1) as (d2 & E2 & P2);
    try done.
  { destruct P1 as [-> _]. done. }
  exists d1. split; [done|]. rewrite E2. f_equal. apply list_eq_load. intros j.
  destruct P1 as (_ & V1 & _), P2 as (_ & V2 & F2).
  destruct (visited_or_not b width offset_w offset_h j) as [(h & w & c & Hvis & ->)|Hn].
  - destruct (V1 h w c Hvis) as [_ Ea]. destruct (V2 h w c Hvis) as [_ Eb].
    unfold pixel in *. by rewrite Ea, Eb.
  - by apply F2.
Qed.
End Passes.

(** The bytes of the example tiles are bytes. *)
Lemma tall_tile_bytes_valid : Forall UInt8.valid tall_tile_bytes.
Proof.
  unfold tall_tile_bytes, UInt8.valid. simpl.
  repeat (apply Forall_cons; split; [lia|]). apply Forall_nil_2.
Qed.

Lemma readScaled_loop_commute_witness :
  ∃ data',
    readScaled_loop tall_tile_bytes 2 2 0 0 (zeroed 16)
      ≫= readScaled_loop tall_tile_bytes 2 2 1 2 = Some data' ∧
    readScaled_loop tall_tile_bytes 2 2 1 2 (zeroed 16)
      ≫= readScaled_loop tall_tile_bytes 2 2 0 0 = Some data'.
Proof.
  apply (readScaled_loop_commute 2 2 4); try reflexivity;
    try exact tall_tile_bytes_valid; vm_compute; intuition congruence.
Defined.

Lemma readScaled_loop_idempotent_witness :
  ∃ data',
    readScaled_loop tall_tile_bytes 2 2 1 2 (zeroed 16) = Some data' ∧
    readScaled_loop tall_tile_bytes 2 2 1 2 data' = Some data'.
Proof.
  apply (readScaled_loop_idempotent 2 2 4); try reflexivity;
    try exact tall_tile_bytes_valid; vm_compute; intuition congruence.
Defined.

(** ** The world along a call *)

(** Unfold a call down to the tests it makes on the world. *)
Ltac unfold_io :=
  unfold read, write, bind, fopen_rb, fopen_wb, png_create_struct, png_destroy_struct,
    file_contents, file_put, fclose, throw, ret, defined, undefined, get_errno,
    set_open_files, set_allocations, set_errno, set_files; simpl.

Section Effects.
Context {L : LibPNG}.

Lemma read_files filename data width height colored σ :
  files (snd (read filename data width height colored σ)) = files σ.
Proof.
  destruct σ as [fs wp op al e]. unfold_io.
  destruct (fs !! filename) eqn:Hf; simpl; [|done].
  destruct (default true (head al)); simpl; [|done].
  destruct (default true (head (drop 1 al))); simpl; [|done].
  destruct (default true (head (drop 1 (drop 1 al)))); simpl; [|done].
  rewrite Hf. simpl. destruct (png_read_png s) as [img|]; simpl; [|done].
  case_decide; simpl; [done|].
  destruct (copy_rows _ _ _ _ _); done.
Qed.

Lemma read_open_files filename data width height colored σ :
  alloc_ok 3 σ →
  fst (read filename data width height colored σ) ≠ Undefined →
  open_files (snd (read filename data width height colored σ)) = open_files σ.
Proof.
  destruct σ as [fs wp op al e]. unfold alloc_ok. simpl.
  intros (H1 & H2 & H3)%alloc_heads. unfold_io.
  destruct (fs !! filename) eqn:Hf; simpl; [|done].
  rewrite H1. simpl. rewrite H2. simpl. rewrite H3. simpl. rewrite Hf. simpl.
  destruct (png_read_png s) as [img|]; simpl.
  - case_decide; simpl; [by rewrite decide_True|].
    destruct (copy_rows _ _ _ _ _); simpl; [by rewrite decide_True|done].
  - by rewrite decide_True.
Qed.

(** A file that is no tile of the expected kind: [read] throws. *)
Lemma read_bad filename data width height colored σ :
  bad_tile_file σ filename width height colored →
  ∃ e σ', read filename data width height colored σ = (Throw e, σ').
Proof.
  destruct σ as [fs wp op al e]. unfold bad_tile_file. simpl. unfold_io.
  destruct (fs !! filename) eqn:Hf; simpl; [|eauto].
  destruct (default true (head al)); simpl; [|eauto].
  destruct (default true (head (drop 1 al))); simpl; [|eauto].
  destruct (default true (head (drop 1 (drop 1 al)))); simpl; [|eauto].
  rewrite Hf. simpl. destruct (png_read_png s) as [img|]; simpl; [|eauto].
  intros Hbad. rewrite decide_True by done. eauto.
Qed.

Lemma write_files_other filename data width height colored σ path :
  path ≠ filename →
  files (snd (write filename data width height colored σ)) !! path = files σ !! path.
Proof.
  intros Hne. destruct σ as [fs wp op al e]. unfold_io.
  case_decide; simpl; [done|].
  destruct (default true (head al)); simpl; [|by rewrite lookup_insert_ne].
  destruct (default true (head (drop 1 al))); simpl; [|by rewrite lookup_insert_ne].
  destruct (png_set_IHDR _ _ _ _); simpl; [|by rewrite lookup_insert_ne].
  destruct (rows_of _ _ _ _ _); simpl; [|by rewrite lookup_insert_ne].
  destruct (png_write_png _) as [out ok]. simpl.
  destruct ok; simpl; by rewrite !lookup_insert_ne.
Qed.

Lemma write_open_files filename data width height colored σ :
  alloc_ok 2 σ →
  fst (write filename data width height colored σ) ≠ Undefined →
  open_files (snd (write filename data width height colored σ)) = open_files σ.
Proof.
  destruct σ as [fs wp op al e]. unfold alloc_ok. simpl. intros Halloc.
  assert (H1 : default true (head al) = true ∧ default true (head (drop 1 al)) = true).
  { destruct al as [|a1 [|a2 rest]]; simpl in *; [done| |].
    - by apply Forall_cons in Halloc as [-> _].
    - apply Forall_cons in Halloc as [-> Halloc].
      by apply Forall_cons in Halloc as [-> _]. }
  destruct H1 as [H1 H2]. unfold_io.
  case_decide; simpl; [done|].
  rewrite H1. simpl. rewrite H2. simpl.
  destruct (png_set_IHDR _ _ _ _); simpl; [|by rewrite decide_True].
  destruct (rows_of _ _ _ _ _); simpl; [|done].
  destruct (png_write_png _) as [out ok]. simpl.
  destruct ok; simpl; by rewrite decide_True.
Qed.

Lemma readScaled_files data offset_w offset_h file width height colored σ :
  files (snd (readScaled data offset_w offset_h file width height colored σ)) = files σ.
Proof.
  destruct file as [file|]; [|done].
  destruct (alloc_ok_dec 1 σ) as [Ha|Ha]; [|by rewrite readScaled_refused].
  rewrite readScaled_granted by done. unfold bind.
  pose proof (read_files file
    (zeroed (bytes_per_pixel colored * width * height)%sz) width height colored
    (after_allocations 1 σ)) as Hr.
  destruct (read _ _ _ _ _ _) as [[input| |] σ']; simpl in *; try done.
  unfold defined. by destruct (readScaled_loop _ _ _ _ _ _).
Qed.
End Effects.

(** ** Reading a tile *)

(** Copying the rows of a decoded image fills the destination with them. *)
Lemma copy_rows_concat rows dst b width height :
  0 < b → 0 <= width → 0 <= height →
  Z.of_nat (length dst) = b * width * height →
  Z.of_nat (length dst) < 2 ^ 64 →
  length rows = Z.to_nat height →
  Forall (λ row, Z.of_nat (length row) = b * width) rows →
  copy_rows rows b width height dst = Some (concat rows) ∧
  length (concat rows) = length dst.
Proof.
  intros Hb Hw Hh Hlen Hsize Hrows Hrow. unfold copy_rows.
  destruct (for_upto_inv
    (λ i d, length d = length dst ∧
            take (Z.to_nat (b * i * width)) d = concat (take (Z.to_nat i) rows))
    (λ i d, row ← rows !! Z.to_nat i;
            memcpy d (row_offset b width i) row (b * width)%sz)
    height dst Hh) as (d & -> & Hd & Htake).
  - split; [done|]. by rewrite Z.mul_0_r, Z.mul_0_l.
  - intros i d Hi [Hd Htake].
    destruct (lookup_lt_is_Some_2 rows (Z.to_nat i)) as [row Hr]; [lia|].
    rewrite Hr. simpl.
    pose proof (Forall_lookup_1 _ _ _ _ Hrow Hr) as Hrl. simpl in Hrl.
    destruct (row_offset_small b width height i) as (-> & Ho & Hle); try lia.
    assert (b * width < 2 ^ 64) by lia.
    assert (0 <= b * width) by (apply Z.mul_nonneg_nonneg; lia).
    rewrite (SizeT_mul_small b width) by lia.
    unfold memcpy. rewrite decide_True by lia.
    eexists. split; [done|]. split.
    + rewrite !length_app, !length_take, !length_drop. lia.
    + replace (b * (i + 1) * width) with (b * i * width + b * width) by lia.
      rewrite Z2Nat.inj_add by lia.
      rewrite take_app_add' by (rewrite length_take; lia).
      rewrite Htake.
      rewrite take_app_le by (rewrite !length_take; lia).
      rewrite take_idemp, (take_ge row) by lia.
      replace (Z.to_nat (i + 1)) with (S (Z.to_nat i)) by lia.
      rewrite (take_S_r _ _ _ Hr), concat_app. simpl. by rewrite app_nil_r.
  - rewrite take_ge in Htake by lia. rewrite take_ge in Htake by lia.
    by subst d.
Qed.

Section Reading.
Context {L : LibPNG}.

(** A tile file is read in full, whatever the destination held. *)
Lemma read_tile file dst width height colored input σ :
  tile_file σ file width height colored input →
  alloc_ok 3 σ →
  0 <= width → 0 <= height →
  Z.of_nat (length dst) = bytes_per_pixel colored * width * height →
  Z.of_nat (length dst) < 2 ^ 64 →
  read file dst width height colored σ = (Return input, after_allocations 3 σ) ∧
  length input = length dst.
Proof.
  intros (s & img & Hf & Hdec & Hw & Hh & Hd & Hc & Hn & Hrl & <- & _) Halloc
    Hwidth Hheight Hlen Hsize.
  destruct (copy_rows_concat (image_rows img) dst (bytes_per_pixel colored) width height)
    as [Hcopy Hl]; try done.
  { by destruct colored. }
  split; [|done]. by eapply read_returns.
Qed.

(** One pass of the downsampler over a tile file. *)
Lemma readScaled_tile data offset_w offset_h file width height colored input σ :
  tile_file σ file width height colored input →
  alloc_ok 4 σ →
  0 <= width → width <= height →
  bytes_per_pixel colored * width * height < 2 ^ 64 →
  Z.of_nat (length data) = bytes_per_pixel colored * width * height →
  0 <= offset_w ∧ offset_w + width / 2 <= width →
  0 <= offset_h ∧ offset_h + width / 2 <= height →
  ∃ data',
    readScaled data offset_w offset_h (Some file) width height colored σ
    = (Return data', after_allocations 4 σ) ∧
    painted input (bytes_per_pixel colored) width offset_w offset_h
      (visited (bytes_per_pixel colored) width) data data'.
Proof.
  intros Htile Halloc Hw Hwh Hsize Hdata How Hoh.
  assert (Hb : 0 < bytes_per_pixel colored) by (by destruct colored).
  assert (0 <= bytes_per_pixel colored * width) by (apply Z.mul_nonneg_nonneg; lia).
  assert (0 <= bytes_per_pixel colored * width * height)
    by (apply Z.mul_nonneg_nonneg; lia).
  assert (E : (bytes_per_pixel colored * width * height)%sz
              = bytes_per_pixel colored * width * height).
  { destruct (decide (height = 0)) as [->|].
    - unfold SizeT.mul at 1. rewrite !Z.mul_0_r. reflexivity.
    - assert (bytes_per_pixel colored * width * 1
              <= bytes_per_pixel colored * width * height)
        by (apply Z.mul_le_mono_nonneg_l; lia).
      rewrite (SizeT_mul_small (bytes_per_pixel colored) width) by lia.
      rewrite SizeT_mul_small by lia. done. }
  assert (Hz : Z.of_nat (length (zeroed (bytes_per_pixel colored * width * height)))
               = bytes_per_pixel colored * width * height)
    by (apply length_zeroed; lia).
  destruct (read_tile file (zeroed (bytes_per_pixel colored * width * height))
              width height colored input (after_allocations 1 σ)) as [Hread Hlen];
    try done; try lia.
  { by apply (alloc_ok_after 1 3). }
  rewrite after_allocations_add in Hread.
  assert (2 * (width / 2) <= width) by (apply Z.mul_div_le; lia).
  assert (Hvalid : Forall UInt8.valid input)
    by (by destruct Htile as (? & ? & ? & ? & ? & ? & ? & ? & ? & ? & ? & ?)).
  destruct (readScaled_loop_painted input (bytes_per_pixel colored) width height
              offset_w offset_h data) as (data' & Hrun & Hp);
    try done; try lia.
  exists data'. split; [|done].
  rewrite readScaled_granted by (apply (alloc_ok_le 1 4); [lia|done]).
  unfold bind. rewrite E, Hread. unfold defined. by rewrite Hrun.
Qed.
End Reading.

(** ** The passes of the composer *)

Section Composer.
Context {L : LibPNG}.



End Composer.


(** The rows libpng is handed: the buffer cut every [b * width] bytes, each
    piece kept to the header's [b * png_w] bytes. *)
Lemma rows_of_buffer data b width height :
  0 < b → 0 <= width → 0 <= height →
  Z.of_nat (length data) = b * width * height →
  Z.of_nat (length data) < 2 ^ 64 →
  rows_of data b width (PngUInt32.of_size_t width) (PngUInt32.of_size_t height)
  = Some ((λ i, take (Z.to_nat (b * PngUInt32.of_size_t width))
                  (drop (Z.to_nat (b * i * width)) data))
            <$> seqZ 0 (PngUInt32.of_size_t height)).
Proof.
  intros Hb Hw Hh Hlen Hsize. apply rows_of_Some. intros i Hi.
  pose proof (PngUInt32_le width Hw). pose proof (PngUInt32_le height Hh).
  destruct (row_offset_small b width height i) as (-> & Ho & Hle); try lia.
  assert (0 <= b * PngUInt32.of_size_t width <= b * width)
    by (split; [apply Z.mul_nonneg_nonneg | apply Z.mul_le_mono_nonneg_l]; lia).
  unfold read_row. by rewrite decide_True by lia.
Qed.

(** Cut every [m] bytes and put together again, a buffer is its own
    beginning. *)
Lemma concat_pieces (data : list Z) (m : Z) (k : nat) :
  0 <= m →
  concat ((λ i, take (Z.to_nat m) (drop (Z.to_nat (i * m)) data)) <$> seqZ 0 (Z.of_nat k))
  = take (Z.to_nat (Z.of_nat k * m)) data.
Proof.
  intros Hm. induction k as [|k IH].
  - done.
  - rewrite seqZ_S, fmap_app, concat_app, IH. simpl. rewrite app_nil_r.
    rewrite take_take_drop. f_equal. nia.
Qed.

Section Compose.
Context {L : LibPNG}.



Lemma readScaled_Return_valid data offset_w offset_h file width height colored σ data' σ' :
  readScaled data offset_w offset_h file width height colored σ = (Return data', σ') →
  Forall UInt8.valid data → Forall UInt8.valid data'.
Proof.
  destruct file as [file|]; [|simpl; by intros [= <- <-]].
  destruct (alloc_ok_dec 1 σ) as [Ha|Ha]; [|by rewrite readScaled_refused].
  rewrite readScaled_granted by done.
  unfold bind. destruct (read _ _ _ _ _ _) as [[input| |] σ1]; try done.
  unfold defined. destruct (readScaled_loop _ _ _ _ _ _) as [d|] eqn:E; [|done].
  intros [= <- <-] Hdata. by eapply readScaled_loop_valid.
Qed.

Lemma zeroed_valid n : Forall UInt8.valid (zeroed n).
Proof. unfold zeroed. apply Forall_replicate. unfold UInt8.valid. lia. Qed.

(** A composition that has returned: its four passes have, and then the
    encoder, given a buffer of bytes. *)
Lemma mipmap_Return_inv output width height colored nw ne sw se σ σ' :
  mipmap output width height colored nw ne sw se σ = (Return tt, σ') →
  ∃ data σ4,
    Forall UInt8.valid data ∧
    write output data width height colored σ4 = (Return tt, σ').
Proof.
  destruct (alloc_ok_dec 1 σ) as [Ha|Ha]; [|by rewrite mipmap_refused].
  rewrite mipmap_granted by done. unfold bind.
  destruct (readScaled _ 0 0 nw _ _ _ _) as [[d1| |] σ1] eqn:E1; try done.
  destruct (readScaled d1 _ _ ne _ _ _ _) as [[d2| |] σ2] eqn:E2; try done.
  destruct (readScaled d2 _ _ sw _ _ _ _) as [[d3| |] σ3] eqn:E3; try done.
  destruct (readScaled d3 _ _ se _ _ _ _) as [[d4| |] σ4] eqn:E4; try done.
  intros Hwrite. exists d4, σ4. split; [|done].
  eapply readScaled_Return_valid; [exact E4|].
  eapply readScaled_Return_valid; [exact E3|].
  eapply readScaled_Return_valid; [exact E2|].
  eapply readScaled_Return_valid; [exact E1|].
  apply zeroed_valid.
Qed.

End Compose.

(** ** What a composition leaves alone *)

Section Frames.
Context {L : LibPNG}.

(** A property of the world carried through a sequence. *)
Lemma bind_world {A B} (P : world → Prop) (m : M A) (k : A → M B) σ :
  P (snd (m σ)) →
  (∀ a σ1, m σ = (Return a, σ1) → P (snd (k a σ1))) →
  P (snd (bind m k σ)).
Proof.
  intros Hm Hk. unfold bind. destruct (m σ) as [[a|e|] σ1]; simpl in *; auto.
Qed.

Lemma readScaled_Return_files data offset_w offset_h file width height colored σ data' σ' :
  readScaled data offset_w offset_h file width height colored σ = (Return data', σ') →
  files σ' = files σ.
Proof.
  intros E. pose proof (readScaled_files data offset_w offset_h file width height colored σ)
    as H. by rewrite E in H.
Qed.

Lemma mipmap_files_other output width height colored nw ne sw se σ path :
  path ≠ output →
  files (snd (mipmap output width height colored nw ne sw se σ)) !! path
  = files σ !! path.
Proof.
  intros Hne.
  destruct (alloc_ok_dec 1 σ) as [Ha|Ha]; [|by rewrite mipmap_refused].
  rewrite mipmap_granted by done.
  change (files σ !! path) with (files (after_allocations 1 σ) !! path).
  generalize (after_allocations 1 σ). clear σ Ha. intros σ.
  apply (bind_world (λ σ', files σ' !! path = files σ !! path)).
  { by rewrite readScaled_files. }
  intros d1 σ1 E1%readScaled_Return_files.
  apply (bind_world (λ σ', files σ' !! path = files σ !! path)).
  { by rewrite readScaled_files, E1. }
  intros d2 σ2 E2%readScaled_Return_files.
  apply (bind_world (λ σ', files σ' !! path = files σ !! path)).
  { by rewrite readScaled_files, E2, E1. }
  intros d3 σ3 E3%readScaled_Return_files.
  apply (bind_world (λ σ', files σ' !! path = files σ !! path)).
  { by rewrite readScaled_files, E3, E2, E1. }
  intros d4 σ4 E4%readScaled_Return_files.
  rewrite write_files_other by done. by rewrite E4, E3, E2, E1.
Qed.

Lemma bind_stopped {A B} (m : M A) (k : A → M B) σ σ0 :
  stopped σ0 (m σ) ∨ (∃ a σ1, m σ = (Return a, σ1) ∧ stopped σ0 (k a σ1)) →
  stopped σ0 (bind m k σ).
Proof.
  unfold bind. intros [[Hr Hf]|(a & σ1 & -> & Hk)]; [|done].
  destruct (m σ) as [[a|e|] σ1]; simpl in *; [by destruct (Hr a)| |]; by split.
Qed.

Lemma readScaled_bad data offset_w offset_h file width height colored σ σ0 :
  files σ = files σ0 →
  bad_tile_file σ0 file width height colored →
  stopped σ0 (readScaled data offset_w offset_h (Some file) width height colored σ).
Proof.
  intros Hf Hbad.
  destruct (alloc_ok_dec 1 σ) as [Ha|Ha];
    [|rewrite readScaled_refused by done; by split].
  rewrite readScaled_granted by done.
  assert (Hbad' : bad_tile_file (after_allocations 1 σ) file width height colored)
    by (unfold bad_tile_file in *; simpl; by rewrite Hf).
  destruct (read_bad file (zeroed (bytes_per_pixel colored * width * height)%sz)
              width height colored _ Hbad') as (e & σ' & Hread).
  pose proof (read_files file (zeroed (bytes_per_pixel colored * width * height)%sz)
                width height colored (after_allocations 1 σ)) as Hfiles.
  unfold bind. rewrite Hread in *. simpl in *. split; [done|].
  simpl. congruence.
Qed.

(** A pass either stops with the files as they were, or goes on with them. *)
Lemma readScaled_goes_on {B} data offset_w offset_h file width height colored σ σ0
    (k : list Z → M B) :
  files σ = files σ0 →
  (∀ d σ1, files σ1 = files σ0 → stopped σ0 (k d σ1)) →
  stopped σ0 (bind (readScaled data offset_w offset_h file width height colored) k σ).
Proof.
  intros Hf Hk. apply bind_stopped.
  pose proof (readScaled_files data offset_w offset_h file width height colored σ) as H.
  destruct (readScaled _ _ _ _ _ _ _ σ) as [[d|e|] σ1] eqn:E; simpl in *.
  - right. exists d, σ1. split; [done|]. apply Hk. by rewrite H.
  - left. split; [done|]. simpl. by rewrite H.
  - left. split; [done|]. simpl. by rewrite H.
Qed.

Lemma mipmap_stopped output width height colored nw ne sw se σ file :
  Some file ∈ [nw; ne; sw; se] →
  bad_tile_file σ file width height colored →
  stopped σ (mipmap output width height colored nw ne sw se σ).
Proof.
  intros Hin Hbad.
  destruct (alloc_ok_dec 1 σ) as [Ha|Ha]; [|rewrite mipmap_refused by done; by split].
  rewrite mipmap_granted by done.
  apply elem_of_cons in Hin as [<-|Hin].
  { apply bind_stopped. left. by apply readScaled_bad. }
  apply readScaled_goes_on; [done|]. intros d1 σ1 F1.
  apply elem_of_cons in Hin as [<-|Hin].
  { apply bind_stopped. left. by apply readScaled_bad. }
  apply readScaled_goes_on; [done|]. intros d2 σ2 F2.
  apply elem_of_cons in Hin as [<-|Hin].
  { apply bind_stopped. left. by apply readScaled_bad. }
  apply readScaled_goes_on; [done|]. intros d3 σ3 F3.
  apply elem_of_cons in Hin as [<-|Hin]; [|by apply elem_of_nil in Hin].
  apply bind_stopped. left. by apply readScaled_bad.
Qed.
End Frames.

(** ** Rows and buffers *)

(** The [i]-th piece of rows of equal length put end to end is the [i]-th
    row. *)
Lemma concat_piece (rows : list (list Z)) (m i : nat) (r : list Z) :
  Forall (λ row, length row = m) rows →
  rows !! i = Some r →
  take m (drop (i * m) (concat rows)) = r.
Proof.
  intros Hrows. revert i r. induction Hrows as [|r0 rs Hr0 Hrs IH]; intros i r Hi.
  - done.
  - destruct i as [|i]; simpl in *.
    + injection Hi as <-. by rewrite drop_0, take_app_length'.
    + rewrite drop_app_add' by done. by apply IH.
Qed.

Lemma length_concat_uniform (rows : list (list Z)) (m : nat) :
  Forall (λ row, length row = m) rows → length (concat rows) = (length rows * m)%nat.
Proof.
  induction 1 as [|r0 rs Hr0 Hrs IH]; simpl; [done|].
  rewrite length_app. lia.
Qed.

(** Cutting the bytes of a decoded image gives back its rows. *)
Lemma rows_of_concat rows b width height :
  0 < b → 0 <= width < 2 ^ 32 → 0 <= height < 2 ^ 32 →
  b * width * height < 2 ^ 64 →
  length rows = Z.to_nat height →
  Forall (λ row, Z.of_nat (length row) = b * width) rows →
  rows_of (concat rows) b width
    (PngUInt32.of_size_t width) (PngUInt32.of_size_t height) = Some rows.
Proof.
  intros Hb Hw Hh Hsize Hn Hrows.
  assert (0 <= b * width) by (apply Z.mul_nonneg_nonneg; lia).
  assert (Hu : Forall (λ row : list Z, length row = Z.to_nat (b * width)) rows).
  { eapply Forall_impl; [exact Hrows|]. simpl. intros; lia. }
  assert (Hlen : Z.of_nat (length (concat rows)) = b * width * height).
  { rewrite (length_concat_uniform _ _ Hu), Hn. nia. }
  rewrite rows_of_buffer with (height := height) by (done || lia).
  unfold PngUInt32.of_size_t. rewrite !Z.mod_small by lia.
  f_equal. apply list_eq. intros i. rewrite list_lookup_fmap.
  destruct (decide (i < length rows)%nat) as [Hi|Hi].
  - rewrite lookup_seqZ_lt by lia. simpl.
    destruct (lookup_lt_is_Some_2 rows i Hi) as [r Hr]. rewrite Hr. f_equal.
    replace (Z.to_nat (b * (0 + Z.of_nat i) * width))
      with (i * Z.to_nat (b * width))%nat by nia.
    by apply concat_piece.
  - rewrite lookup_seqZ_ge by lia. simpl. symmetry. apply lookup_ge_None. lia.
Qed.

(** A loop stops as undefined at a step where its body is, when the steps
    before keep what makes it so. *)
Lemma for_loop_fails {S : Type} (I : S → Prop) (body : Z → S → option S) n i0 s k :
  (∀ i s s', I s → body i s = Some s' → I s') →
  (∀ s, I s → body k s = None) →
  i0 <= k < i0 + Z.of_nat n →
  I s → for_loop n i0 body s = None.
Proof.
  intros Hkeep Hfail. revert i0 s. induction n as [|n IH]; intros i0 s Hk Hs; simpl.
  - lia.
  - destruct (body i0 s) as [s'|] eqn:E; [|done].
    destruct (decide (i0 = k)) as [->|Hne].
    + by rewrite (Hfail s Hs) in E.
    + apply IH; [lia|]. by eapply Hkeep.
Qed.

(** The rows handed to libpng for a buffer of the right size: [height] rows
    of [b * width] bytes, which put end to end are the buffer. *)
(** The rows libpng is given are as many as the header says, each of the
    header's row length, and hold bytes of the buffer. *)
Lemma rows_of_shape data b width png_w png_h rows :
  Forall UInt8.valid data →
  rows_of data b width png_w png_h = Some rows →
  length rows = Z.to_nat png_h ∧
  Forall (λ row, Z.of_nat (length row) = b * png_w) rows ∧
  Forall UInt8.valid (concat rows).
Proof.
  unfold rows_of. intros Hdata Hrows%mapM_Some_1.
  split; [by rewrite <- (Forall2_length _ _ _ Hrows), length_seqZ|].
  assert (Hrow : Forall (λ row, Z.of_nat (length row) = b * png_w ∧ Forall UInt8.valid row)
                   rows).
  { apply Forall_forall. intros r [k Hk]%list_elem_of_lookup_1.
    destruct (Forall2_lookup_r _ _ _ _ _ Hrows Hk) as (i & _ & Hread).
    apply read_row_Some in Hread as (Ho & Hn & Hfit & ->). split.
    - rewrite length_take, length_drop. lia.
    - by apply Forall_take, Forall_drop. }
  split.
  - eapply Forall_impl; [exact Hrow|]. by intros r [? ?].
  - apply Forall_concat. eapply Forall_impl; [exact Hrow|]. by intros r [? ?].
Qed.

Lemma rows_of_exact data b width height rows :
  0 < b → 0 <= width < 2 ^ 32 → 0 <= height < 2 ^ 32 →
  Z.of_nat (length data) = b * width * height →
  Z.of_nat (length data) < 2 ^ 64 →
  rows_of data b width (PngUInt32.of_size_t width) (PngUInt32.of_size_t height)
  = Some rows →
  concat rows = data ∧
  length rows = Z.to_nat height ∧
  Forall (λ row, Z.of_nat (length row) = b * width) rows.
Proof.
  intros Hb Hw Hh Hlen Hsize Hrows.
  assert (Hbw : 0 <= b * width) by (apply Z.mul_nonneg_nonneg; lia).
  rewrite rows_of_buffer with (height := height) in Hrows by (done || lia).
  injection Hrows as <-.
  unfold PngUInt32.of_size_t in *. rewrite !Z.mod_small in * by lia.
  split; [|split].
  - transitivity (take (Z.to_nat (Z.of_nat (Z.to_nat height) * (b * width))) data).
    + rewrite <- concat_pieces by done. rewrite Z2Nat.id by lia.
      f_equal. apply list_fmap_ext. intros i x Hx. do 3 f_equal. lia.
    + apply take_ge. lia.
  - by rewrite length_fmap, length_seqZ.
  - apply Forall_fmap, Forall_forall. intros i Hi%elem_of_seqZ. simpl.
    rewrite length_take, length_drop.
    assert (b * i * width + b * width <= b * width * height).
    { replace (b * i * width + b * width) with (b * width * (i + 1)) by lia.
      apply Z.mul_le_mono_nonneg_l; lia. }
    assert (0 <= b * i * width) by (repeat apply Z.mul_nonneg_nonneg; lia).
    lia.
Qed.

(** ** [read] and [write] in the world *)

Section Behaviour.
Context {L : LibPNG}.

(** X6: whatever [read] ends in, short of undefined behaviour, it has
    changed no file; and when libpng could create its three structs, the
    handles open after the call are those open before it. *)
Theorem read_keeps_world filename data width height colored σ r σ' :
  read filename data width height colored σ = (r, σ') →
  r ≠ Undefined →
  files σ' = files σ ∧ (alloc_ok 3 σ → open_files σ' = open_files σ).
Proof.
  intros E Hr. split.
  - pose proof (read_files filename data width height colored σ) as H.
    by rewrite E in H.
  - intros Halloc.
    pose proof (read_open_files filename data width height colored σ Halloc) as H.
    rewrite E in H. by apply H.
Qed.

(** X7: whatever [write] ends in, short of undefined behaviour, every file
    but [filename] is as it was; and when libpng could create its two
    structs, the handles open after the call are those open before it. *)
Theorem write_keeps_world filename data width height colored σ r σ' :
  write filename data width height colored σ = (r, σ') →
  r ≠ Undefined →
  (∀ path, path ≠ filename → files σ' !! path = files σ !! path) ∧
  (alloc_ok 2 σ → open_files σ' = open_files σ).
Proof.
  intros E Hr. split.
  - intros path Hne.
    pose proof (write_files_other filename data width height colored σ path Hne) as H.
    by rewrite E in H.
  - intros Halloc.
    pose proof (write_open_files filename data width height colored σ Halloc) as H.
    rewrite E in H. by apply H.
Qed.

(** X8: [read] of a file that does not exist throws [std::system_error]
    "unable to open PNG file"; no handle is open, no file has changed and
    libpng was not asked for anything. *)
Theorem read_missing_file filename data width height colored σ :
  files σ !! filename = None →
  ∃ code σ',
    read filename data width height colored σ
    = (Throw (system_error code "unable to open PNG file"), σ') ∧
    files σ' = files σ ∧ open_files σ' = open_files σ ∧ allocations σ' = allocations σ.
Proof.
  intros Hf. destruct σ as [fs wp op al e]. simpl in *. unfold_io. rewrite Hf.
  simpl. eauto 10.
Qed.

(** X9: [write] to a path that cannot be opened for writing throws
    [std::system_error] "unable to open PNG file"; no file has changed, no
    handle is open and libpng was not asked for anything. *)
Theorem write_cannot_open filename data width height colored σ :
  filename ∈ write_protected σ →
  ∃ code σ',
    write filename data width height colored σ
    = (Throw (system_error code "unable to open PNG file"), σ') ∧
    files σ' = files σ ∧ open_files σ' = open_files σ ∧ allocations σ' = allocations σ.
Proof.
  intros Hf. destruct σ as [fs wp op al e]. simpl in *. unfold_io.
  rewrite decide_True by done. simpl. eauto 10.
Qed.

(** X10: [read] of a file libpng cannot decode throws [std::runtime_error]
    "unable to read PNG file", with the file closed again and nothing else
    changed but the three allocations made. *)
Theorem read_undecodable filename data width height colored σ s :
  files σ !! filename = Some s →
  png_read_png s = None →
  alloc_ok 3 σ →
  read filename data width height colored σ
  = (Throw (runtime_error "unable to read PNG file"), after_allocations 3 σ).
Proof.
  intros Hf Hdec Halloc. destruct σ as [fs wp op al e].
  unfold alloc_ok, after_allocations in *. simpl in *.
  destruct (alloc_heads al Halloc) as (H1 & H2 & H3). unfold_io. rewrite Hf. simpl.
  rewrite H1. simpl. rewrite H2. simpl. rewrite H3. simpl. rewrite Hf. simpl.
  rewrite Hdec. simpl. rewrite decide_True by done. by rewrite !drop_drop.
Qed.

(** X11: when [write] throws after it has opened the file and created its
    structs, the exception is [std::runtime_error] "unable to write PNG
    file" and the file is closed, but nothing is rolled back: what the file
    held before is gone, and it now holds nothing (the header was refused)
    or what libpng had put out before it failed. *)
Theorem write_failure_leaves_file filename data width height colored σ e σ' :
  write filename data width height colored σ = (Throw e, σ') →
  filename ∉ write_protected σ →
  alloc_ok 2 σ →
  e = runtime_error "unable to write PNG file" ∧
  open_files σ' = open_files σ ∧
  ((png_set_IHDR (PngUInt32.of_size_t width) (PngUInt32.of_size_t height) 8
      (color_type_of colored) = false ∧
    files σ' !! filename = Some stream_empty) ∨
   (∃ rows out,
      png_write_png (PngImage (PngUInt32.of_size_t width) (PngUInt32.of_size_t height) 8
                       (color_type_of colored) rows) = (out, false) ∧
      files σ' !! filename = Some out)).
Proof.
  destruct σ as [fs wp op al e0]. unfold alloc_ok. simpl. intros E Hwp Halloc.
  assert (H12 : default true (head al) = true ∧ default true (head (drop 1 al)) = true).
  { destruct al as [|a1 [|a2 rest]]; simpl in *; [done| |].
    - by apply Forall_cons in Halloc as [-> _].
    - apply Forall_cons in Halloc as [-> Halloc].
      by apply Forall_cons in Halloc as [-> _]. }
  destruct H12 as [H1 H2]. revert E. unfold_io.
  rewrite decide_False by done. simpl.
  rewrite H1. simpl. rewrite H2. simpl.
  destruct (png_set_IHDR _ _ _ _) eqn:Hihdr; simpl.
  - destruct (rows_of _ _ _ _ _) as [rows|]; simpl; [|done].
    destruct (png_write_png _) as [out ok] eqn:Hout. simpl.
    destruct ok; simpl; [done|]. rewrite decide_True by done.
    intros [= <- <-]. simpl. split; [done|]. split; [done|]. right.
    exists rows, out. split; [done|]. apply lookup_insert_eq.
  - rewrite decide_True by done. intros [= <- <-]. simpl.
    split; [done|]. split; [done|]. left. split; [done|]. apply lookup_insert_eq.
Qed.

(** X12: when [write] returns, for a buffer of
    [bytes_per_pixel * width * height] bytes with dimensions below 2^32,
    the file holds libpng's output for the image of that width and height,
    8 bits deep, whose [height] rows of [bytes_per_pixel * width] bytes,
    put end to end, are the buffer itself. *)
Theorem write_rows_verbatim filename data width height colored σ σ' :
  write filename data width height colored σ = (Return tt, σ') →
  0 <= width < 2 ^ 32 → 0 <= height < 2 ^ 32 →
  Z.of_nat (length data) = bytes_per_pixel colored * width * height →
  Z.of_nat (length data) < 2 ^ 64 →
  ∃ rows s,
    files σ' !! filename = Some s ∧
    png_write_png (PngImage width height 8 (color_type_of colored) rows) = (s, true) ∧
    concat rows = data ∧
    length rows = Z.to_nat height ∧
    Forall (λ row, Z.of_nat (length row) = bytes_per_pixel colored * width) rows.
Proof.
  intros (rows & s & _ & Hrows & Hs & ->)%write_Return_inv Hw Hh Hlen Hsize.
  assert (Hb : 0 < bytes_per_pixel colored) by (by destruct colored).
  destruct (rows_of_exact data (bytes_per_pixel colored) width height rows)
    as (Hc & Hn & Hl); try done.
  unfold PngUInt32.of_size_t in Hs. rewrite !Z.mod_small in Hs by lia.
  exists rows, s. split; [simpl; apply lookup_insert_eq|]. done.
Qed.

(** X13: [read] of a tile file of the expected width, height and format
    returns the rows of the image put end to end: every byte of the
    destination is overwritten, whatever it held. *)
Theorem read_fills_destination file dst width height colored input σ :
  tile_file σ file width height colored input →
  alloc_ok 3 σ →
  0 <= width → 0 <= height →
  Z.of_nat (length dst) = bytes_per_pixel colored * width * height →
  Z.of_nat (length dst) < 2 ^ 64 →
  read file dst width height colored σ = (Return input, after_allocations 3 σ).
Proof. intros. by apply read_tile. Qed.
End Behaviour.

Section Behaviour2.
Context {L : LibPNG}.

(** X14: a tile file read and written again, under any name, has libpng
    encode the very image it had decoded: the second file holds libpng's
    output for that image, and the call throws only if libpng does not
    finish it. *)
Theorem read_write_same_image file out dst width height colored σ s img :
  files σ !! file = Some s →
  png_read_png s = Some img →
  image_width img = width → image_height img = height →
  image_bit_depth img = 8 → image_color_type img = color_type_of colored →
  length (image_rows img) = Z.to_nat height →
  Forall (λ row, Z.of_nat (length row) = bytes_per_pixel colored * width)
    (image_rows img) →
  Forall UInt8.valid (concat (image_rows img)) →
  0 <= width < 2 ^ 32 → 0 <= height < 2 ^ 32 →
  Z.of_nat (length dst) = bytes_per_pixel colored * width * height →
  Z.of_nat (length dst) < 2 ^ 64 →
  alloc_ok 5 σ →
  out ∉ write_protected σ →
  png_set_IHDR width height 8 (color_type_of colored) = true →
  ∃ data σ1,
    read file dst width height colored σ = (Return data, σ1) ∧
    write out data width height colored σ1
    = (if snd (png_write_png img)
       then Return tt
       else Throw (runtime_error "unable to write PNG file"),
       World (<[out := fst (png_write_png img)]> (files σ)) (write_protected σ)
         (open_files σ) (drop 5 (allocations σ)) (errno σ)).
Proof.
  intros Hf Hdec Hiw Hih Hid Hic Hn Hrows Hvalid Hw Hh Hlen Hsize Halloc Hwp Hihdr.
  assert (Hb : 0 < bytes_per_pixel colored) by (by destruct colored).
  exists (concat (image_rows img)), (after_allocations 3 σ). split.
  { assert (Htile : tile_file σ file width height colored (concat (image_rows img)))
      by (exists s, img; by repeat split).
    apply (read_tile file dst width height colored _ σ Htile); try done; try lia.
    by apply (alloc_ok_le 3 5); [lia|]. }
  assert (Himg : PngImage width height 8 (color_type_of colored) (image_rows img) = img).
  { destruct img. simpl in *. by subst. }
  destruct σ as [fs wp op al e]. unfold alloc_ok, after_allocations in *. simpl in *.
  assert (H12 : default true (head (drop 3 al)) = true ∧
                default true (head (drop 1 (drop 3 al))) = true).
  { destruct al as [|a1 [|a2 [|a3 [|a4 [|a5 rest]]]]]; simpl in *; try done;
      repeat match goal with
             | H : Forall _ (_ :: _) |- _ => apply Forall_cons in H as [-> H]
             end; done. }
  destruct H12 as [H1 H2]. unfold_io.
  rewrite decide_False by done. simpl. rewrite H1. simpl. rewrite H2. simpl.
  unfold PngUInt32.of_size_t. rewrite !Z.mod_small by lia. rewrite Hihdr. simpl.
  pose proof (rows_of_concat (image_rows img) (bytes_per_pixel colored) width height
                Hb Hw Hh ltac:(lia) Hn Hrows) as Hr.
  unfold PngUInt32.of_size_t in Hr. rewrite !Z.mod_small in Hr by lia.
  rewrite Hr. simpl. rewrite Himg.
  destruct (png_write_png img) as [o ok]. simpl.
  destruct ok; simpl; rewrite decide_True by done;
    by rewrite insert_insert_eq, !drop_drop.
Qed.

(** X15: [write] does not check the buffer against the dimensions: with a
    buffer shorter than [bytes_per_pixel * width * height] bytes and a
    header libpng accepts, the last row pointer leads past the end of the
    buffer and the call is undefined. *)
Theorem write_short_buffer_undefined filename data width height colored σ :
  0 < width < 2 ^ 32 → 0 < height < 2 ^ 32 →
  bytes_per_pixel colored * width * height < 2 ^ 64 →
  Z.of_nat (length data) < bytes_per_pixel colored * width * height →
  filename ∉ write_protected σ →
  alloc_ok 2 σ →
  png_set_IHDR width height 8 (color_type_of colored) = true →
  fst (write filename data width height colored σ) = Undefined.
Proof.
  intros Hw Hh Hsize Hshort Hwp Halloc Hihdr.
  assert (Hb : 0 < bytes_per_pixel colored) by (by destruct colored).
  assert (Hrows : rows_of data (bytes_per_pixel colored) width width height = None).
  { unfold rows_of. apply mapM_None_2. apply Exists_exists.
    exists (height - 1). split; [apply elem_of_seqZ; lia|].
    destruct (row_offset_small (bytes_per_pixel colored) width height (height - 1))
      as (-> & Ho & Hle); try lia.
    unfold read_row. apply decide_False. intros (_ & _ & Hfit).
    replace (bytes_per_pixel colored * (height - 1) * width
             + bytes_per_pixel colored * width)
      with (bytes_per_pixel colored * width * height) in Hfit by lia. lia. }
  destruct σ as [fs wp op al e]. unfold alloc_ok in Halloc. simpl in *.
  assert (H12 : default true (head al) = true ∧ default true (head (drop 1 al)) = true).
  { destruct al as [|a1 [|a2 rest]]; simpl in *; [done| |].
    - by apply Forall_cons in Halloc as [-> _].
    - apply Forall_cons in Halloc as [-> Halloc].
      by apply Forall_cons in Halloc as [-> _]. }
  destruct H12 as [H1 H2]. unfold_io.
  rewrite decide_False by done. simpl. rewrite H1. simpl. rewrite H2. simpl.
  unfold PngUInt32.of_size_t. rewrite !Z.mod_small by lia.
  rewrite Hihdr. simpl. by rewrite Hrows.
Qed.


(** X16: [read] does not check the destination against the dimensions:
    copying a tile file into a buffer shorter than
    [bytes_per_pixel * width * height] bytes writes past its end. *)
Theorem read_short_destination_undefined file dst width height colored input σ :
  tile_file σ file width height colored input →
  alloc_ok 3 σ →
  0 < width → 0 < height →
  bytes_per_pixel colored * width * height < 2 ^ 64 →
  Z.of_nat (length dst) < bytes_per_pixel colored * width * height →
  fst (read file dst width height colored σ) = Undefined.
Proof.
  intros (s & img & Hf & Hdec & Hiw & Hih & Hid & Hic & Hn & Hrl & _ & _) Halloc
    Hw Hh Hsize Hshort.
  assert (Hb : 0 < bytes_per_pixel colored) by (by destruct colored).
  assert (Hcopy : copy_rows (image_rows img) (bytes_per_pixel colored) width height dst
                  = None).
  { unfold copy_rows, for_upto.
    apply (for_loop_fails (λ d, length d = length dst) _ _ _ _ (height - 1));
      [| |lia|done].
    - intros i d d' Hd Hstep.
      destruct (image_rows img !! Z.to_nat i) as [row|]; [|done]. simpl in Hstep.
      unfold memcpy in Hstep. case_decide; [|done]. injection Hstep as <-.
      rewrite !length_app, !length_take, !length_drop. lia.
    - intros d Hd.
      destruct (image_rows img !! Z.to_nat (height - 1)) as [row|]; [|done]. simpl.
      destruct (row_offset_small (bytes_per_pixel colored) width height (height - 1))
        as (-> & Ho & Hle); try lia.
      assert (0 <= bytes_per_pixel colored * width)
        by (apply Z.mul_nonneg_nonneg; lia).
      rewrite (SizeT_mul_small (bytes_per_pixel colored) width) by lia.
      unfold memcpy. apply decide_False. intros (_ & _ & Hfit & _).
      replace (bytes_per_pixel colored * (height - 1) * width
               + bytes_per_pixel colored * width)
        with (bytes_per_pixel colored * width * height) in Hfit by lia. lia. }
  destruct σ as [fs wp op al e]. unfold alloc_ok in Halloc. simpl in *.
  destruct (alloc_heads al Halloc) as (H1 & H2 & H3). unfold_io. rewrite Hf. simpl.
  rewrite H1. simpl. rewrite H2. simpl. rewrite H3. simpl. rewrite Hf. simpl.
  rewrite Hdec. rewrite decide_False by (intros [?|[?|[?|?]]]; congruence).
  by rewrite Hcopy.
Qed.


(** X17: on a tile at least as high as wide, when [new] gives the child's
    buffer and libpng its three structs, a pass of [readScaled] over a tile
    file returns with the child closed again; the square of [width/2] by
    [width/2] pixels at the offsets holds the box averages of the child and
    every pixel outside it is as it was.  When [new] refuses the buffer,
    the pass ends in [std::bad_alloc] with the child not opened. *)
Theorem readScaled_present data offset_w offset_h file width height colored input σ :
  tile_file σ file width height colored input →
  0 <= width → width <= height →
  bytes_per_pixel colored * width * height < 2 ^ 64 →
  Z.of_nat (length data) = bytes_per_pixel colored * width * height →
  0 <= offset_w ∧ offset_w + width / 2 <= width →
  0 <= offset_h ∧ offset_h + width / 2 <= height →
  (¬ alloc_ok 1 σ →
   readScaled data offset_w offset_h (Some file) width height colored σ
   = (Throw bad_alloc, after_allocations 1 σ)) ∧
  (alloc_ok 4 σ →
   ∃ data',
     readScaled data offset_w offset_h (Some file) width height colored σ
     = (Return data', after_allocations 4 σ) ∧
     length data' = length data ∧
     (∀ h w c,
        0 <= h < width / 2 → 0 <= w < width / 2 → 0 <= c < bytes_per_pixel colored →
        ∃ v, box_average input (bytes_per_pixel colored) width h w c = Some v ∧
             pixel data' (bytes_per_pixel colored) width (offset_h + h) (offset_w + w) c
             = Some v) ∧
     (∀ r col c,
        0 <= col < width → 0 <= c < bytes_per_pixel colored →
        ¬ (offset_h <= r < offset_h + width / 2 ∧
           offset_w <= col < offset_w + width / 2) →
        pixel data' (bytes_per_pixel colored) width r col c
        = pixel data (bytes_per_pixel colored) width r col c)).
Proof.
  intros Htile Hw Hwh Hsize Hdata How Hoh.
  split; [apply readScaled_refused|]. intros Halloc.
  destruct (readScaled_tile data offset_w offset_h file width height colored input σ)
    as (data' & Hrun & Hlen & Hval & Hframe); try done.
  exists data'. split; [done|]. split; [done|]. split.
  - intros h w c Hh Hw' Hc. destruct (Hval h w c) as [[v Hv] Hp]; [done|].
    exists v. split; [done|]. by rewrite Hp.
  - intros r col c Hcol Hc Hout. apply Hframe.
    intros h w c' (Hh & Hw' & Hc') E.
    apply pixel_index_inj in E as (-> & -> & ->); lia.
Qed.



(** X19: what a composition writes can be a child of the next one.  With
    a lossless libpng and a width and a height below 2^32, whenever
    [mipmap] returns, whatever the shape of the tile and whichever children
    were given, the file at [output] is a tile file of the same width,
    height and format. *)
Theorem mipmap_output_is_tile output width height colored nw ne sw se σ σ' :
  png_lossless L →
  0 <= width < 2 ^ 32 → 0 <= height < 2 ^ 32 →
  mipmap output width height colored nw ne sw se σ = (Return tt, σ') →
  ∃ data, tile_file σ' output width height colored data.
Proof.
  intros Hlossless Hw Hh
    (data & σ4 & Hv & (rows & s & _ & Hr & Hs & ->)%write_Return_inv)%mipmap_Return_inv.
  destruct (rows_of_shape _ _ _ _ _ _ Hv Hr) as (Hn & Hrl & Hvalid).
  exists (concat rows), s,
    (PngImage (PngUInt32.of_size_t width) (PngUInt32.of_size_t height) 8
       (color_type_of colored) rows).
  unfold PngUInt32.of_size_t in *. rewrite !Z.mod_small in * by lia. simpl.
  split; [apply lookup_insert_eq|].
  split; [by apply Hlossless|]. by repeat split.
Qed.

(** X20: whatever [mipmap] ends in, short of undefined behaviour, every
    file but [output] is as it was: the children are only read. *)
Theorem mipmap_touches_output_only output width height colored nw ne sw se σ r σ' path :
  mipmap output width height colored nw ne sw se σ = (r, σ') →
  r ≠ Undefined →
  path ≠ output →
  files σ' !! path = files σ !! path.
Proof.
  intros E _ Hne.
  pose proof (mipmap_files_other output width height colored nw ne sw se σ path Hne) as H.
  by rewrite E in H.
Qed.


(** X21: when one of the children given cannot be read as a tile of the
    expected width, height and format (it does not exist, libpng fails on
    it, or its header differs), [mipmap] does not return normally and,
    short of undefined behaviour, has changed no file: the output is
    neither created nor touched. *)
Theorem mipmap_bad_child output width height colored nw ne sw se σ file r σ' :
  Some file ∈ [nw; ne; sw; se] →
  bad_tile_file σ file width height colored →
  mipmap output width height colored nw ne sw se σ = (r, σ') →
  r ≠ Return tt ∧ (r ≠ Undefined → files σ' = files σ).
Proof.
  intros Hin Hbad E.
  destruct (mipmap_stopped output width height colored nw ne sw se σ file Hin Hbad)
    as [Hr Hf].
  rewrite E in Hr, Hf. simpl in *. split; [apply Hr|done].
Qed.
End Behaviour2.

(** ** The properties above on the example tiles *)

(** The tall example tile, in a world that holds it, is a tile file. *)
Lemma tall_tile_file alloc :
  tile_file (world_with [("nw.png", tall_tile)] alloc) "nw.png" 2 4 false tall_tile_bytes.
Proof.
  exists (Some tall_tile), tall_tile.
  split; [vm_compute; reflexivity|]. repeat split; try reflexivity.
  - simpl. repeat (apply Forall_cons; split; [reflexivity|]). apply Forall_nil_2.
  - exact tall_tile_bytes_valid.
Qed.

Lemma read_keeps_world_witness :
  files (snd (read (L := plain_png) "nw.png" (zeroed 16) 2 4 false
                (world_of [("nw.png", tall_tile)])))
  = files (world_of [("nw.png", tall_tile)]) ∧
  (alloc_ok 3 (world_of [("nw.png", tall_tile)]) →
   open_files (snd (read (L := plain_png) "nw.png" (zeroed 16) 2 4 false
                      (world_of [("nw.png", tall_tile)])))
   = open_files (world_of [("nw.png", tall_tile)])).
Proof.
  apply (read_keeps_world (L := plain_png) "nw.png" (zeroed 16) 2 4 false
           (world_of [("nw.png", tall_tile)])
           (fst (read (L := plain_png) "nw.png" (zeroed 16) 2 4 false
                   (world_of [("nw.png", tall_tile)])))).
  - apply surjective_pairing.
  - vm_compute. discriminate.
Defined.

Lemma write_keeps_world_witness :
  (∀ path, path ≠ "out.png" →
     files (snd (write (L := plain_png) "out.png" tall_tile_bytes 2 4 false
                   (world_of [("nw.png", tall_tile)]))) !! path
     = files (world_of [("nw.png", tall_tile)]) !! path) ∧
  (alloc_ok 2 (world_of [("nw.png", tall_tile)]) →
   open_files (snd (write (L := plain_png) "out.png" tall_tile_bytes 2 4 false
                      (world_of [("nw.png", tall_tile)])))
   = open_files (world_of [("nw.png", tall_tile)])).
Proof.
  apply (write_keeps_world (L := plain_png) "out.png" tall_tile_bytes 2 4 false
           (world_of [("nw.png", tall_tile)])
           (fst (write (L := plain_png) "out.png" tall_tile_bytes 2 4 false
                   (world_of [("nw.png", tall_tile)])))).
  - apply surjective_pairing.
  - vm_compute. discriminate.
Defined.

Lemma read_missing_file_witness :
  ∃ code σ',
    read (L := plain_png) "nw.png" (zeroed 16) 2 4 false (world_of [])
    = (Throw (system_error code "unable to open PNG file"), σ') ∧
    files σ' = files (world_of []) ∧ open_files σ' = open_files (world_of []) ∧
    allocations σ' = allocations (world_of []).
Proof.
  apply (read_missing_file (L := plain_png)). vm_compute. reflexivity.
Defined.

Lemma write_cannot_open_witness :
  ∃ code σ',
    write (L := plain_png) "out.png" tall_tile_bytes 2 4 false
      (World (L := plain_png) ∅ {["out.png"]} [] [] 0)
    = (Throw (system_error code "unable to open PNG file"), σ') ∧
    files σ' = ∅ ∧ open_files σ' = [] ∧ allocations σ' = [].
Proof.
  apply (write_cannot_open (L := plain_png) "out.png" tall_tile_bytes 2 4 false
           (World (L := plain_png) ∅ {["out.png"]} [] [] 0)).
  simpl. set_solver.
Defined.

Lemma read_undecodable_witness :
  read (L := plain_png) "nw.png" (zeroed 16) 2 4 false
    (World (L := plain_png) {["nw.png" := None]} ∅ [] [] 0)
  = (Throw (runtime_error "unable to read PNG file"),
     after_allocations 3 (World (L := plain_png) {["nw.png" := None]} ∅ [] [] 0)).
Proof.
  apply (read_undecodable (L := plain_png) "nw.png" (zeroed 16) 2 4 false
           (World (L := plain_png) {["nw.png" := None]} ∅ [] [] 0) None).
  - simpl. apply lookup_singleton_eq.
  - reflexivity.
  - constructor.
Defined.

Lemma write_failure_leaves_file_witness :
  let σ' := snd (write (L := plain_png) "out.png" [] 0 0 false
                   (world_of [("out.png", tall_tile)])) in
  open_files σ' = open_files (world_of [("out.png", tall_tile)]) ∧
  ((png_set_IHDR (LibPNG := plain_png) (PngUInt32.of_size_t 0) (PngUInt32.of_size_t 0) 8
      (color_type_of false) = false ∧
    files σ' !! "out.png" = Some (stream_empty (LibPNG := plain_png))) ∨
   (∃ rows out,
      png_write_png (LibPNG := plain_png)
        (PngImage (PngUInt32.of_size_t 0) (PngUInt32.of_size_t 0) 8
           (color_type_of false) rows) = (out, false) ∧
      files σ' !! "out.png" = Some out)).
Proof.
  intros σ'.
  apply (write_failure_leaves_file (L := plain_png) "out.png" [] 0 0 false
           (world_of [("out.png", tall_tile)])
           (runtime_error "unable to write PNG file") σ').
  - apply injective_projections; [vm_compute; reflexivity | reflexivity].
  - simpl. set_solver.
  - constructor.
Defined.

Lemma write_rows_verbatim_witness :
  ∃ rows s,
    files (snd (write (L := plain_png) "tile.png" tall_tile_bytes 2 4 false (world_of [])))
      !! "tile.png" = Some s ∧
    png_write_png (LibPNG := plain_png)
      (PngImage 2 4 8 (color_type_of false) rows) = (s, true) ∧
    concat rows = tall_tile_bytes ∧
    length rows = Z.to_nat 4 ∧
    Forall (λ row, Z.of_nat (length row) = bytes_per_pixel false * 2) rows.
Proof.
  apply (write_rows_verbatim (L := plain_png) "tile.png" tall_tile_bytes 2 4 false
           (world_of [])).
  - apply injective_projections; [vm_compute; reflexivity | reflexivity].
  - lia.
  - lia.
  - reflexivity.
  - vm_compute. reflexivity.
Defined.

Lemma read_fills_destination_witness :
  read (L := plain_png) "nw.png" (replicate 16 7) 2 4 false
    (world_of [("nw.png", tall_tile)])
  = (Return tall_tile_bytes, after_allocations 3 (world_of [("nw.png", tall_tile)])).
Proof.
  apply (read_fills_destination (L := plain_png)).
  - apply tall_tile_file.
  - constructor.
  - lia.
  - lia.
  - reflexivity.
  - vm_compute. reflexivity.
Defined.

Lemma read_write_same_image_witness :
  ∃ data σ1,
    read (L := plain_png) "nw.png" (zeroed 16) 2 4 false (world_of [("nw.png", tall_tile)])
    = (Return data, σ1) ∧
    write "copy.png" data 2 4 false σ1
    = (if snd (png_write_png (LibPNG := plain_png) tall_tile)
       then Return tt
       else Throw (runtime_error "unable to write PNG file"),
       World (<["copy.png" := fst (png_write_png (LibPNG := plain_png) tall_tile)]>
                (files (world_of [("nw.png", tall_tile)])))
         (write_protected (world_of [("nw.png", tall_tile)]))
         (open_files (world_of [("nw.png", tall_tile)]))
         (drop 5 (allocations (world_of [("nw.png", tall_tile)])))
         (errno (world_of [("nw.png", tall_tile)]))).
Proof.
  apply (read_write_same_image (L := plain_png) "nw.png" "copy.png" (zeroed 16) 2 4 false
           (world_of [("nw.png", tall_tile)]) (Some tall_tile) tall_tile).
  - vm_compute. reflexivity.
  - reflexivity.
  - reflexivity.
  - reflexivity.
  - reflexivity.
  - reflexivity.
  - reflexivity.
  - simpl. repeat (apply Forall_cons; split; [reflexivity|]). apply Forall_nil_2.
  - exact tall_tile_bytes_valid.
  - lia.
  - lia.
  - reflexivity.
  - vm_compute. reflexivity.
  - constructor.
  - simpl. set_solver.
  - reflexivity.
Defined.

Lemma write_short_buffer_undefined_witness :
  fst (write (L := plain_png) "out.png" [1; 2; 3] 2 4 false (world_of [])) = Undefined.
Proof.
  apply (write_short_buffer_undefined (L := plain_png)).
  - lia.
  - lia.
  - vm_compute. reflexivity.
  - vm_compute. reflexivity.
  - simpl. set_solver.
  - constructor.
  - reflexivity.
Defined.

Lemma read_short_destination_undefined_witness :
  fst (read (L := plain_png) "nw.png" [0; 0; 0] 2 4 false
         (world_of [("nw.png", tall_tile)])) = Undefined.
Proof.
  apply (read_short_destination_undefined (L := plain_png) "nw.png" [0; 0; 0] 2 4 false
           tall_tile_bytes).
  - apply tall_tile_file.
  - constructor.
  - lia.
  - lia.
  - vm_compute. reflexivity.
  - vm_compute. reflexivity.
Defined.

Lemma readScaled_present_witness :
  readScaled (L := plain_png) (replicate 16 7) 0 2 (Some "nw.png") 2 4 false
    (world_with [("nw.png", tall_tile)] [false])
  = (Throw bad_alloc, after_allocations 1 (world_with [("nw.png", tall_tile)] [false])) ∧
  ∃ data',
    readScaled (L := plain_png) (replicate 16 7) 0 2 (Some "nw.png") 2 4 false
      (world_of [("nw.png", tall_tile)])
    = (Return data', after_allocations 4 (world_of [("nw.png", tall_tile)])) ∧
    length data' = length (replicate 16 7) ∧
    (∀ h w c,
       0 <= h < 2 / 2 → 0 <= w < 2 / 2 → 0 <= c < bytes_per_pixel false →
       ∃ v, box_average tall_tile_bytes (bytes_per_pixel false) 2 h w c = Some v ∧
            pixel data' (bytes_per_pixel false) 2 (2 + h) (0 + w) c = Some v) ∧
    (∀ r col c,
       0 <= col < 2 → 0 <= c < bytes_per_pixel false →
       ¬ (2 <= r < 2 + 2 / 2 ∧ 0 <= col < 0 + 2 / 2) →
       pixel data' (bytes_per_pixel false) 2 r col c
       = pixel (replicate 16 7) (bytes_per_pixel false) 2 r col c).
Proof.
  split.
  - apply (readScaled_present (L := plain_png) (replicate 16 7) 0 2 "nw.png" 2 4 false
             tall_tile_bytes (world_with [("nw.png", tall_tile)] [false])).
    + apply tall_tile_file.
    + lia.
    + lia.
    + vm_compute. reflexivity.
    + reflexivity.
    + vm_compute. intuition congruence.
    + vm_compute. intuition congruence.
    + unfold alloc_ok. simpl. by intros [[=] _]%Forall_cons.
  - apply (readScaled_present (L := plain_png) (replicate 16 7) 0 2 "nw.png" 2 4 false
             tall_tile_bytes (world_of [("nw.png", tall_tile)])).
    + apply tall_tile_file.
    + lia.
    + lia.
    + vm_compute. reflexivity.
    + reflexivity.
    + vm_compute. intuition congruence.
    + vm_compute. intuition congruence.
    + constructor.
Defined.


Lemma mipmap_output_is_tile_witness :
  ∃ data,
    tile_file
      (snd (mipmap (L := plain_png) "out.png" 4 2 false None None None None (world_of [])))
      "out.png" 4 2 false data.
Proof.
  apply (mipmap_output_is_tile (L := plain_png) "out.png" 4 2 false
           None None None None (world_of [])).
  - exact plain_png_lossless.
  - lia.
  - lia.
  - apply injective_projections; [vm_compute; reflexivity | reflexivity].
Defined.

Lemma mipmap_touches_output_only_witness :
  files (snd (mipmap (L := plain_png) "out.png" 2 4 false (Some "nw.png") None None None
                (world_of [("nw.png", tall_tile)]))) !! "nw.png"
  = files (world_of [("nw.png", tall_tile)]) !! "nw.png".
Proof.
  apply (mipmap_touches_output_only (L := plain_png) "out.png" 2 4 false
           (Some "nw.png") None None None (world_of [("nw.png", tall_tile)])
           (fst (mipmap (L := plain_png) "out.png" 2 4 false (Some "nw.png") None None None
                   (world_of [("nw.png", tall_tile)])))).
  - apply surjective_pairing.
  - vm_compute. discriminate.
  - discriminate.
Defined.

Lemma mipmap_bad_child_witness :
  fst (mipmap (L := plain_png) "out.png" 2 4 false None (Some "ne.png") None None
         (world_of [])) ≠ Return tt ∧
  (fst (mipmap (L := plain_png) "out.png" 2 4 false None (Some "ne.png") None None
          (world_of [])) ≠ Undefined →
   files (snd (mipmap (L := plain_png) "out.png" 2 4 false None (Some "ne.png") None None
                 (world_of []))) = files (world_of [])).
Proof.
  apply (mipmap_bad_child (L := plain_png) "out.png" 2 4 false
           None (Some "ne.png") None None (world_of []) "ne.png").
  - set_solver.
  - vm_compute. exact I.
  - apply surjective_pairing.
Defined.
